(** * The telemetry parameter store of flight/telem.cc

    A shallow embedding of the persistent parameter store kept by
    [TelemInit] and [TelemUpdate] in [src/flight_code/flight/telem.cc]:
    the record layout in EEPROM (header, parameters, checksum), the
    load / initialise / recover sequence of [TelemInit] and the incremental
    rewrite of [TelemUpdate].

    Modelling conventions.
    - A byte ([uint8_t]) is a [Byte.byte]; conversions to and from wider
      integers are written out ([u8], [to_u8], [to_u16]).
    - A C array of static size is a total map from index to element together
      with its declared size; an access at or past the declared size is
      undefined behaviour and ends the run with [Undefined].
    - A [float] is its object representation, four bytes in memory order.
      The code never computes with the parameters, it only copies them with
      [memcpy] and assignment, so the representation is all that matters.
    - The file-scope variables of the anonymous namespace are the fields of
      [Globals]; the EEPROM device and the message channel are part of it,
      each with a log of what was done to it.
    - The MavLink object [telem_] is external.  What it answers on a frame
      ([updated_param()], [param(i)]) is an input of [TelemUpdate]; the table
      handed to it by [params(...)] is recorded.  Its configuration, the
      sensor fields and the mission, fence and rally items that the two
      functions copy in and out of it take no part in the parameter store and
      are left out. *)

From Stdlib Require Import ZArith List Lia Bool Arith String Ascii.
From Stdlib Require Import Strings.Byte.
Import ListNotations.

(** ** Bytes and fixed-width integers *)

(** The value of a [uint8_t]. *)
Definition u8 (b : byte) : Z := Z.of_N (Byte.to_N b).

(** [static_cast<uint8_t>(z)]: reduction modulo 2^8. *)
Definition to_u8 (z : Z) : byte :=
  match Byte.of_N (Z.to_N (z mod 256)%Z) with
  | Some b => b
  | None => x00
  end.

(** Conversion to [uint16_t]: reduction modulo 2^16. *)
Definition to_u16 (z : Z) : Z := (z mod 65536)%Z.

(** Arrays of static size: a total map, the size is kept by the code. *)
Definition upd {A : Type} (f : nat -> A) (i : nat) (v : A) : nat -> A :=
  fun j => if Nat.eqb j i then v else f j.

(** The bytes [p[0], ..., p[len-1]] that a pointer and a length denote. *)
Definition span (p : nat -> byte) (len : nat) : list byte :=
  map p (seq 0 len).

(** The object representation of a [float]: four bytes in memory order. *)
Record float32 : Type := Float32 { fb0 : byte; fb1 : byte; fb2 : byte; fb3 : byte }.

Definition float_byte (f : float32) (k : nat) : byte :=
  match k with
  | 0 => fb0 f
  | 1 => fb1 f
  | 2 => fb2 f
  | _ => fb3 f
  end.

(** The float whose representation starts at [p[off]]. *)
Definition float_at (p : nat -> byte) (off : nat) : float32 :=
  Float32 (p off) (p (off + 1)) (p (off + 2)) (p (off + 3)).

(** [0.0f]: all four bytes zero. *)
Definition float_zero : float32 := Float32 x00 x00 x00 x00.

(** Flipping bit [k] of a byte. *)
Definition flip_bit (b : byte) (k : nat) : byte :=
  to_u8 (Z.lxor (u8 b) (Z.shiftl 1 (Z.of_nat k))).

(** ** The checksum of checksum/checksum.h *)

(** Modelled from the spec: the class [bfs::Fletcher16] of
    [checksum/checksum.h] is not among the sources.  The spec describes its
    [Compute] as a pure 16-bit Fletcher-style checksum over a byte span: two
    running sums modulo 255, the first over the bytes and the second over the
    first, returned as [sum1 << 8 | sum0]. *)
Definition fletcher_step (s : Z * Z) (b : byte) : Z * Z :=
  let sum0 := ((fst s + u8 b) mod 255)%Z in
  let sum1 := ((snd s + sum0) mod 255)%Z in
  (sum0, sum1).

Definition Fletcher16 (data : list byte) : Z :=
  let s := fold_left fletcher_step data (0, 0)%Z in
  Z.lor (Z.shiftl (snd s) 8) (fst s).

(** The sum of the bytes of a span. *)
Definition byte_sum (l : list byte) : Z :=
  fold_right (fun b s => (u8 b + s)%Z) 0%Z l.

(** ** Outcomes and the state of the translation unit *)

Inductive outcome (A : Type) : Type :=
| Done (a : A)
| Undefined.
Arguments Done {A} a.
Arguments Undefined {A}.

Inductive eeprom_op : Type :=
| EeRead (addr : nat)
| EeWrite (addr : nat) (v : byte).

Inductive msg : Type :=
| Info (text : string)
| Warning (text : string).

Definition is_write (o : eeprom_op) : bool :=
  match o with
  | EeRead _ => false
  | EeWrite _ _ => true
  end.

(** The device, the message channel, the recorded MavLink table and the
    variables of the anonymous namespace that belong to the store. *)
Record Globals : Type := mkGlobals {
  EEPROM : nat -> byte;
  eeprom_log : list eeprom_op;
  msg_log : list msg;
  telem_params : nat -> float32;
  param_idx_ : Z;
  param_buf : nat -> byte;
  chk_computed : Z;
  chk_read : Z;
  chk_buf : byte * byte
}.

(** The part of [TelemData] that the store owns: [std::array<float, N> param]. *)
Record TelemData : Type := mkTelemData {
  param : nat -> float32
}.

Definition M (A : Type) : Type := Globals -> outcome (A * Globals).

Definition ret {A : Type} (a : A) : M A := fun g => Done (a, g).

Definition bind {A B : Type} (m : M A) (k : A -> M B) : M B :=
  fun g =>
    match m g with
    | Done (a, g') => k a g'
    | Undefined => Undefined
    end.

Declare Scope store_scope.
Delimit Scope store_scope with store.
Notation "x <- m ;; k" := (bind m (fun x => k))
  (at level 61, m at next level, right associativity) : store_scope.
Notation "m ;; k" := (bind m (fun _ => k))
  (at level 61, right associativity) : store_scope.
Open Scope store_scope.

(** [for (std::size_t i = start; i < start + count; i++) body(i)] *)
Fixpoint for_range (start count : nat) (body : nat -> M unit) : M unit :=
  match count with
  | O => ret tt
  | S c => body start ;; for_range (S start) c body
  end.

Definition for_ (n : nat) (body : nat -> M unit) : M unit := for_range 0 n body.

Definition gets {A : Type} (f : Globals -> A) : M A := fun g => Done (f g, g).

Definition set_param_idx_ (z : Z) : M unit := fun g =>
  Done (tt, mkGlobals (EEPROM g) (eeprom_log g) (msg_log g) (telem_params g)
                      z (param_buf g) (chk_computed g) (chk_read g) (chk_buf g)).

Definition set_chk_computed (z : Z) : M unit := fun g =>
  Done (tt, mkGlobals (EEPROM g) (eeprom_log g) (msg_log g) (telem_params g)
                      (param_idx_ g) (param_buf g) z (chk_read g) (chk_buf g)).

Definition set_chk_read (z : Z) : M unit := fun g =>
  Done (tt, mkGlobals (EEPROM g) (eeprom_log g) (msg_log g) (telem_params g)
                      (param_idx_ g) (param_buf g) (chk_computed g) z (chk_buf g)).

Definition set_chk_buf (i : nat) (b : byte) : M unit := fun g =>
  match i with
  | 0 => Done (tt, mkGlobals (EEPROM g) (eeprom_log g) (msg_log g) (telem_params g)
                 (param_idx_ g) (param_buf g) (chk_computed g) (chk_read g)
                 (b, snd (chk_buf g)))
  | 1 => Done (tt, mkGlobals (EEPROM g) (eeprom_log g) (msg_log g) (telem_params g)
                 (param_idx_ g) (param_buf g) (chk_computed g) (chk_read g)
                 (fst (chk_buf g), b))
  | _ => Undefined
  end.

Definition get_chk_buf (i : nat) : M byte := fun g =>
  match i with
  | 0 => Done (fst (chk_buf g), g)
  | 1 => Done (snd (chk_buf g), g)
  | _ => Undefined
  end.

(** [EEPROM.read(i)] and [EEPROM.write(i, v)]. *)
Definition EEPROM_read (i : nat) : M byte := fun g =>
  Done (EEPROM g i,
        mkGlobals (EEPROM g) (eeprom_log g ++ [EeRead i]) (msg_log g)
                  (telem_params g) (param_idx_ g) (param_buf g)
                  (chk_computed g) (chk_read g) (chk_buf g)).

Definition EEPROM_write (i : nat) (v : byte) : M unit := fun g =>
  Done (tt,
        mkGlobals (upd (EEPROM g) i v) (eeprom_log g ++ [EeWrite i v]) (msg_log g)
                  (telem_params g) (param_idx_ g) (param_buf g)
                  (chk_computed g) (chk_read g) (chk_buf g)).

(** [MsgInfo(text)] and [MsgWarning(text)] of flight/msg.h. *)
Definition MsgInfo (text : string) : M unit := fun g =>
  Done (tt,
        mkGlobals (EEPROM g) (eeprom_log g) (msg_log g ++ [Info text])
                  (telem_params g) (param_idx_ g) (param_buf g)
                  (chk_computed g) (chk_read g) (chk_buf g)).

Definition MsgWarning (text : string) : M unit := fun g =>
  Done (tt,
        mkGlobals (EEPROM g) (eeprom_log g) (msg_log g ++ [Warning text])
                  (telem_params g) (param_idx_ g) (param_buf g)
                  (chk_computed g) (chk_read g) (chk_buf g)).

(** [telem_.params(arr)]: the table handed to the MavLink object. *)
Definition telem_set_params (arr : nat -> float32) : M unit := fun g =>
  Done (tt,
        mkGlobals (EEPROM g) (eeprom_log g) (msg_log g)
                  arr (param_idx_ g) (param_buf g)
                  (chk_computed g) (chk_read g) (chk_buf g)).

Definition newline : string := String (ascii_of_nat 10) EmptyString.

(** [PARAM_STORE_HEADER = {'B', 'F', 'S'}] *)
Definition PARAM_STORE_HEADER (i : nat) : byte :=
  match i with
  | 0 => x42
  | 1 => x46
  | _ => x53
  end.

Definition sizeof_header : nat := 3.
Definition sizeof_float : nat := 4.
Definition sizeof_uint16 : nat := 2.

(** ** Closed forms of the loops

    [fill f src start count] is [f] with the entries
    [start, ..., start + count - 1] taken from [src], one assignment after
    the other: what a copying loop leaves in its target. *)
Fixpoint fill {A : Type} (f src : nat -> A) (start count : nat) : nat -> A :=
  match count with
  | O => f
  | S c => fill (upd f start (src start)) src (S start) c
  end.

(** ** The two functions of telem.cc *)

Section Store.

(** [NUM_TELEM_PARAMS] of flight/global_defs.h and
    [param_checksum.Compute(data, len)] of checksum/checksum.h, on the bytes
    that [data] and [len] denote.  Both are outside the sources and are
    parameters here.  [NUM_TELEM_PARAMS] is a small build-time constant, so
    that no [std::size_t] expression of the code wraps around. *)
Variable NUM_TELEM_PARAMS : nat.
Variable Compute : list byte -> Z.

Definition PARAM_STORE_SIZE : nat :=
  sizeof_header + NUM_TELEM_PARAMS * sizeof_float + sizeof_uint16.

(** [param_buf[i]] as an rvalue and as the target of an assignment. *)
Definition buf_get (i : nat) : M byte := fun g =>
  if i <? PARAM_STORE_SIZE then Done (param_buf g i, g) else Undefined.

Definition buf_set (i : nat) (v : byte) : M unit := fun g =>
  if i <? PARAM_STORE_SIZE
  then Done (tt, mkGlobals (EEPROM g) (eeprom_log g) (msg_log g) (telem_params g)
                   (param_idx_ g) (upd (param_buf g) i v)
                   (chk_computed g) (chk_read g) (chk_buf g))
  else Undefined.

(** [param_checksum.Compute(param_buf, len)] *)
Definition checksum_Compute (len : nat) : M Z := fun g =>
  if len <=? PARAM_STORE_SIZE
  then Done (Compute (span (param_buf g) len), g)
  else Undefined.

(** [memcpy(param_buf + off, &f, sizeof(float))] *)
Definition memcpy_to_buf (off : nat) (f : float32) : M unit :=
  for_ sizeof_float (fun k => buf_set (off + k) (float_byte f k)).

(** [memcpy(dst, param_buf + off, len)]: the bytes read from the buffer. *)
Definition memcpy_from_buf (off len : nat) : M (nat -> byte) := fun g =>
  if off + len <=? PARAM_STORE_SIZE
  then Done (fun k => param_buf g (off + k), g)
  else Undefined.

(** [ptr->param[i] = v] on a [std::array<float, NUM_TELEM_PARAMS>]. *)
Definition param_assign (d : TelemData) (i : nat) (v : float32) : M TelemData :=
  fun g =>
    if i <? NUM_TELEM_PARAMS
    then Done (mkTelemData (upd (param d) i v), g)
    else Undefined.

(** [chk_computed = param_checksum.Compute(param_buf, sizeof(HEADER) + N * sizeof(float))] *)
Definition compute_checksum : M unit :=
  c <- checksum_Compute (sizeof_header + NUM_TELEM_PARAMS * sizeof_float) ;;
  set_chk_computed (to_u16 c).

(** Lines 97-100, 131-134 and 281-284: the computed checksum goes to
    [chk_buf] and to the last two bytes of [param_buf], high byte first. *)
Definition put_checksum : M unit :=
  c <- gets chk_computed ;;
  set_chk_buf 0 (to_u8 (Z.shiftr c 8)) ;;
  c <- gets chk_computed ;;
  set_chk_buf 1 (to_u8 c) ;;
  b <- get_chk_buf 0 ;;
  buf_set (PARAM_STORE_SIZE - 2) b ;;
  b <- get_chk_buf 1 ;;
  buf_set (PARAM_STORE_SIZE - 1) b.

(** Lines 86-105 and, word for word again, lines 120-139: set the header,
    zero the parameters, compute and place the checksum, write the whole
    buffer to the EEPROM. *)
Definition reset_store : M unit :=
  buf_set 0 (PARAM_STORE_HEADER 0) ;;
  buf_set 1 (PARAM_STORE_HEADER 1) ;;
  buf_set 2 (PARAM_STORE_HEADER 2) ;;
  for_ (NUM_TELEM_PARAMS * sizeof_float) (fun i => buf_set (i + 3) x00) ;;
  compute_checksum ;;
  put_checksum ;;
  for_ PARAM_STORE_SIZE (fun i => b <- buf_get i ;; EEPROM_write i b) ;;
  MsgInfo ("done." ++ newline).

(** The test of lines 81-83. *)
Definition header_mismatch : M bool :=
  h0 <- buf_get 0 ;;
  h1 <- buf_get 1 ;;
  h2 <- buf_get 2 ;;
  ret (negb (Byte.eqb h0 (PARAM_STORE_HEADER 0))
       || negb (Byte.eqb h1 (PARAM_STORE_HEADER 1))
       || negb (Byte.eqb h2 (PARAM_STORE_HEADER 2))).

(** Lines 112-115: the stored checksum, read back high byte first. *)
Definition read_checksum : M unit :=
  b <- buf_get (PARAM_STORE_SIZE - 2) ;;
  set_chk_buf 0 b ;;
  b <- buf_get (PARAM_STORE_SIZE - 1) ;;
  set_chk_buf 1 b ;;
  b0 <- get_chk_buf 0 ;;
  b1 <- get_chk_buf 1 ;;
  set_chk_read (to_u16 (Z.lor (Z.shiftl (u8 b0) 8) (u8 b1))).

Definition TelemInit (ptr : option TelemData) : M (option TelemData) :=
  match ptr with
  | None => ret None
  | Some d =>
      (* Load the telemetry parameters from EEPROM *)
      for_ PARAM_STORE_SIZE (fun i => b <- EEPROM_read i ;; buf_set i b) ;;
      uninitialized <- header_mismatch ;;
      if uninitialized : bool then
        MsgInfo "Parameter storage not initialized, initializing..." ;;
        reset_store ;;
        ret (Some d)
      else
        compute_checksum ;;
        read_checksum ;;
        computed <- gets chk_computed ;;
        stored <- gets chk_read ;;
        if negb (Z.eqb computed stored) then
          MsgWarning "Parameter storage corrupted, resetting..." ;;
          reset_store ;;
          ret (Some d)
        else
          (* Copy parameter data to global defs *)
          src <- memcpy_from_buf sizeof_header (NUM_TELEM_PARAMS * sizeof_float) ;;
          let d' := mkTelemData
                      (fun i => if i <? NUM_TELEM_PARAMS
                                then float_at src (i * sizeof_float)
                                else param d i) in
          (* Update the parameter values in MAV Link *)
          telem_set_params (param d') ;;
          ret (Some d')
  end.

(** [updated_param] and [new_value] are what [telem_.updated_param()] and
    [telem_.param(param_idx_)] answer after [telem_.Update()]. *)
Definition TelemUpdate (updated_param : Z) (new_value : float32)
           (ptr : option TelemData) : M (option TelemData) :=
  match ptr with
  | None => ret None
  | Some d =>
      set_param_idx_ updated_param ;;
      idx <- gets param_idx_ ;;
      if (0 <=? idx)%Z then
        let i := Z.to_nat idx in
        (* Update the value in global defs *)
        d' <- param_assign d i new_value ;;
        (* Update the parameter buffer value *)
        memcpy_to_buf (sizeof_header + i * sizeof_float) (param d' i) ;;
        (* Compute a new checksum *)
        compute_checksum ;;
        put_checksum ;;
        (* Write to EEPROM *)
        for_ sizeof_float
             (fun k => let addr := k + sizeof_header + i * sizeof_float in
                       b <- buf_get addr ;; EEPROM_write addr b) ;;
        b <- buf_get (PARAM_STORE_SIZE - 2) ;;
        EEPROM_write (PARAM_STORE_SIZE - 2) b ;;
        b <- buf_get (PARAM_STORE_SIZE - 1) ;;
        EEPROM_write (PARAM_STORE_SIZE - 1) b ;;
        ret (Some d')
      else
        ret (Some d)
  end.

(** ** The record format, in the words of the specification *)

(** Offset of the checksum: [3 + 4N]. *)
Definition checksum_offset : nat := 3 + 4 * NUM_TELEM_PARAMS.

(** Offset of parameter [i]: [3 + 4i]. *)
Definition param_offset (i : nat) : nat := 3 + 4 * i.

(** The first three bytes equal the magic constant. *)
Definition is_header_valid (e : nat -> byte) : bool :=
  Byte.eqb (e 0) x42 && Byte.eqb (e 1) x46 && Byte.eqb (e 2) x53.

(** A big-endian 16-bit value. *)
Definition be16 (hi lo : byte) : Z := (256 * u8 hi + u8 lo)%Z.

(** The checksum freshly computed over the bytes [[0, 3+4N)]. *)
Definition fresh_checksum (e : nat -> byte) : Z :=
  to_u16 (Compute (span e checksum_offset)).

(** The checksum stored at offset [3+4N]. *)
Definition stored_checksum (e : nat -> byte) : Z :=
  be16 (e checksum_offset) (e (checksum_offset + 1)).

Definition checksum_matches (e : nat -> byte) : bool :=
  Z.eqb (fresh_checksum e) (stored_checksum e).

(** A record is valid iff its header is the magic constant and its
    checksum matches the freshly computed one. *)
Definition record_valid (e : nat -> byte) : bool :=
  is_header_valid e && checksum_matches e.

Inductive LoadCase : Type := Uninitialized | Corrupted | Valid.

Definition classify (e : nat -> byte) : LoadCase :=
  if is_header_valid e
  then if checksum_matches e then Valid else Corrupted
  else Uninitialized.

(** The persisted record: the first [3 + 4N + 2] bytes of the device. *)
Definition record (e : nat -> byte) : list byte := span e (checksum_offset + 2).

Definition decode_param (e : nat -> byte) (i : nat) : float32 :=
  float_at e (param_offset i).

(** The fresh-reset record: header, all-zero parameters, their checksum. *)
Definition fresh_payload : list byte :=
  [x42; x46; x53] ++ repeat x00 (4 * NUM_TELEM_PARAMS).

Definition fresh_record : list byte :=
  let c := to_u16 (Compute fresh_payload) in
  fresh_payload ++ [to_u8 (c / 256); to_u8 c].

(** The addresses an in-range update may write. *)
Definition update_footprint (i : nat) : list nat :=
  [param_offset i; param_offset i + 1; param_offset i + 2; param_offset i + 3;
   checksum_offset; checksum_offset + 1].

(** Buffer and device hold the same record. *)
Definition buf_in_sync (g : Globals) : Prop :=
  forall j, j < PARAM_STORE_SIZE -> param_buf g j = EEPROM g j.

(** The device with bit [k] of byte [a] flipped. *)
Definition flip_at (e : nat -> byte) (a k : nat) : nat -> byte :=
  upd e a (flip_bit (e a) k).

(** The store is ready: buffer and device agree and the record is valid. *)
Definition store_ready (g : Globals) : Prop :=
  buf_in_sync g /\ record_valid (EEPROM g) = true.

(** An update is rejected: the call returns, and the device, what was done
    to it, the buffer and the caller's array are as they were. *)
Definition update_rejected (idx : Z) (v : float32) (d : TelemData) (g : Globals) : Prop :=
  exists g',
    TelemUpdate idx v (Some d) g = Done (Some d, g') /\
    EEPROM g' = EEPROM g /\
    eeprom_log g' = eeprom_log g /\
    param_buf g' = param_buf g.

(** The frames of the flight loop: one [TelemUpdate] per frame, with what
    the link reports on that frame. *)
Fixpoint frames (ups : list (Z * float32)) (ptr : option TelemData)
  : M (option TelemData) :=
  match ups with
  | [] => ret ptr
  | (idx, v) :: rest => ptr' <- TelemUpdate idx v ptr ;; frames rest ptr'
  end.

(** ** Closed forms of the runs

The states that the blocks of [TelemInit] and [TelemUpdate] end in, as
functions of the state they start in.  The lemmas of the second part show
that the code, run step by step, ends in them. *)

(** After the loop of lines 76-78. *)
Definition loaded (g : Globals) : Globals :=
  mkGlobals (EEPROM g) (eeprom_log g ++ map EeRead (seq 0 PARAM_STORE_SIZE))
            (msg_log g) (telem_params g) (param_idx_ g)
            (fill (param_buf g) (EEPROM g) 0 PARAM_STORE_SIZE)
            (chk_computed g) (chk_read g) (chk_buf g).

Definition with_msg (m : msg) (g : Globals) : Globals :=
  mkGlobals (EEPROM g) (eeprom_log g) (msg_log g ++ [m]) (telem_params g)
            (param_idx_ g) (param_buf g) (chk_computed g) (chk_read g) (chk_buf g).

(** The buffer with its last two bytes set from the 16-bit value [c]. *)
Definition put_chk (pb : nat -> byte) (c : Z) : nat -> byte :=
  upd (upd pb (PARAM_STORE_SIZE - 2) (to_u8 (Z.shiftr c 8)))
      (PARAM_STORE_SIZE - 1) (to_u8 c).

(** The buffer after the header is set and the parameters are zeroed. *)
Definition reset_payload (pb : nat -> byte) : nat -> byte :=
  fill (upd (upd (upd pb 0 (PARAM_STORE_HEADER 0)) 1 (PARAM_STORE_HEADER 1))
            2 (PARAM_STORE_HEADER 2))
       (fun _ => x00) 3 (NUM_TELEM_PARAMS * sizeof_float).

Definition reset_chk (pb : nat -> byte) : Z :=
  to_u16 (Compute (span (reset_payload pb)
                        (sizeof_header + NUM_TELEM_PARAMS * sizeof_float))).

Definition reset_buf (pb : nat -> byte) : nat -> byte :=
  put_chk (reset_payload pb) (reset_chk pb).

(** After [reset_store]. *)
Definition reset_state (g : Globals) : Globals :=
  let pb := reset_buf (param_buf g) in
  let c := reset_chk (param_buf g) in
  mkGlobals (fill (EEPROM g) pb 0 PARAM_STORE_SIZE)
            (eeprom_log g ++ map (fun i => EeWrite i (pb i)) (seq 0 PARAM_STORE_SIZE))
            (msg_log g ++ [Info ("done." ++ newline)])
            (telem_params g) (param_idx_ g) pb c (chk_read g)
            (to_u8 (Z.shiftr c 8), to_u8 c).

(** After lines 109-115. *)
Definition validated (g : Globals) : Globals :=
  let hi := param_buf g (PARAM_STORE_SIZE - 2) in
  let lo := param_buf g (PARAM_STORE_SIZE - 1) in
  mkGlobals (EEPROM g) (eeprom_log g) (msg_log g) (telem_params g) (param_idx_ g)
            (param_buf g)
            (to_u16 (Compute (span (param_buf g)
                                   (sizeof_header + NUM_TELEM_PARAMS * sizeof_float))))
            (to_u16 (Z.lor (Z.shiftl (u8 hi) 8) (u8 lo)))
            (hi, lo).

(** The caller's data after the [memcpy] of lines 142-143. *)
Definition decoded (d : TelemData) (pb : nat -> byte) : TelemData :=
  mkTelemData (fun i => if i <? NUM_TELEM_PARAMS
                        then float_at (fun k => pb (sizeof_header + k)) (i * sizeof_float)
                        else param d i).

Definition pushed (arr : nat -> float32) (g : Globals) : Globals :=
  mkGlobals (EEPROM g) (eeprom_log g) (msg_log g) arr (param_idx_ g)
            (param_buf g) (chk_computed g) (chk_read g) (chk_buf g).

(** The buffer after the [memcpy] of lines 275-276. *)
Definition put_float (pb : nat -> byte) (off : nat) (f : float32) : nat -> byte :=
  upd (upd (upd (upd pb (off + 0) (fb0 f)) (off + 1) (fb1 f)) (off + 2) (fb2 f))
      (off + 3) (fb3 f).

(** After the body of the [if] of lines 271-293, for parameter [i]. *)
Definition updated (i : nat) (v : float32) (g : Globals) : Globals :=
  let off := sizeof_header + i * sizeof_float in
  let pb1 := put_float (param_buf g) off v in
  let c := to_u16 (Compute (span pb1 (sizeof_header + NUM_TELEM_PARAMS * sizeof_float))) in
  let pb := put_chk pb1 c in
  let a := fun k => k + sizeof_header + i * sizeof_float in
  let hi := PARAM_STORE_SIZE - 2 in
  let lo := PARAM_STORE_SIZE - 1 in
  mkGlobals
    (upd (upd (upd (upd (upd (upd (EEPROM g) (a 0) (pb (a 0))) (a 1) (pb (a 1)))
                        (a 2) (pb (a 2))) (a 3) (pb (a 3))) hi (pb hi)) lo (pb lo))
    (eeprom_log g ++ [EeWrite (a 0) (pb (a 0)); EeWrite (a 1) (pb (a 1));
                      EeWrite (a 2) (pb (a 2)); EeWrite (a 3) (pb (a 3));
                      EeWrite hi (pb hi); EeWrite lo (pb lo)])
    (msg_log g) (telem_params g) (Z.of_nat i) pb c (chk_read g)
    (to_u8 (Z.shiftr c 8), to_u8 c).

End Store.

(** ** Concrete states used in the examples *)

(** A device whose bytes are all [0xFF], as an erased EEPROM reads. *)
Definition erased : nat -> byte := fun _ => xff.

(** A device whose bytes are all zero (the spec's scenario). *)
Definition zeroed : nat -> byte := fun _ => x00.

Definition boot (e : nat -> byte) : Globals :=
  mkGlobals e [] [] (fun _ => float_zero) 0%Z (fun _ => x00) 0%Z 0%Z (x00, x00).

Definition zero_data : TelemData := mkTelemData (fun _ => float_zero).

(** [3.5f] is [0x40600000]; in little-endian memory order. *)
Definition f3_5 : float32 := Float32 x00 x00 x60 x40.

(** [1.0f] is [0x3F800000]; in little-endian memory order. *)
Definition f1_0 : float32 := Float32 x00 x00 x80 x3f.

Definition ones_data : TelemData := mkTelemData (fun _ => f1_0).

(** The state a run ends in ([dflt] if it does not end). *)
Definition state_after {A : Type} (o : outcome (A * Globals)) (dflt : Globals) : Globals :=
  match o with
  | Done (_, g) => g
  | Undefined => dflt
  end.

(** The spec's scenario, N = 4: the store after the first boot on a zeroed
    device, and its device. *)
Definition scenario_ready : Globals :=
  state_after (TelemInit 4 Fletcher16 (Some zero_data) (boot zeroed)) (boot zeroed).

Definition fresh4 : nat -> byte := EEPROM scenario_ready.

(** The same device with bit 0 of byte 5 (in parameter 0) flipped, and with
    bit 0 of byte 0 (in the header) flipped. *)
Definition param_flipped4 : nat -> byte := flip_at fresh4 5 0.

Definition header_flipped4 : nat -> byte := flip_at fresh4 0 0.

(** The claim of single-bit sensitivity over header and parameter bytes, for
    a store of [n] parameters with checksum [chk]. *)
Definition single_bit_sensitivity (n : nat) (chk : list byte -> Z) : Prop :=
  forall (e : nat -> byte) (a k : nat),
    record_valid n chk e = true ->
    a < checksum_offset n -> k < 8 ->
    classify n chk (flip_at e a k) = Corrupted.

(** The claim that a load which resets the store leaves the caller's array
    all zeros and equal to what is persisted. *)
Definition reset_zeroes_array (n : nat) (chk : list byte -> Z)
           (d : TelemData) (g : Globals) : Prop :=
  classify n chk (EEPROM g) <> Valid ->
  exists g' d',
    TelemInit n chk (Some d) g = Done (Some d', g') /\
    forall i, i < n ->
              param d' i = float_zero /\ param d' i = decode_param (EEPROM g') i.

(** The scenario's device with its first checksum byte overwritten. *)
Definition checksum_altered4 : nat -> byte := upd fresh4 19 x00.

(** Three frames of the scenario: an update of parameter 2, a frame without
    update, an update of parameter 0. *)
Definition scenario_frames : list (Z * float32) :=
  [(2%Z, f3_5); ((-1)%Z, f1_0); (0%Z, f1_0)].

(** ** Further notions for the store *)

(** A payload (header and parameters) followed by its checksum, high byte
    first: the record a full rewrite of that payload would leave. *)
Definition seal (chk : list byte -> Z) (payload : list byte) : list byte :=
  let c := to_u16 (chk payload) in
  payload ++ [to_u8 (c / 256); to_u8 c].

(** The messages of a load, by what it found. *)
Definition load_messages (c : LoadCase) : list msg :=
  match c with
  | Uninitialized =>
      [Info "Parameter storage not initialized, initializing...";
       Info ("done." ++ newline)]
  | Corrupted =>
      [Warning "Parameter storage corrupted, resetting...";
       Info ("done." ++ newline)]
  | Valid => []
  end.

(** The caller's array holds what the device holds. *)
Definition array_in_sync (n : nat) (d : TelemData) (e : nat -> byte) : Prop :=
  forall k, k < n -> param d k = decode_param e k.

(** The frames on which the link reports an update. *)
Definition pending (ups : list (Z * float32)) : nat :=
  List.length (filter (fun u => (0 <=? fst u)%Z) ups).

Definition op_addr (o : eeprom_op) : nat :=
  match o with
  | EeRead a => a
  | EeWrite a _ => a
  end.

(** ** The effector channels of TelemUpdate (lines 60-62 and 252-257)

    [effector_] is a [std::array<int16_t, 16>]; the channel counts are
    copied, never computed with, so a count is any integer.  [NUM_PWM_PINS]
    and [NUM_SBUS_CH] of the hardware definitions are outside the sources and
    are parameters; [data.vms.pwm.cnt] and [data.vms.sbus.cnt] are the maps
    [pwm] and [sbus].  [std::size_t] is 32 bits wide on the flight computer. *)

Definition effector_size : nat := 16.

Definition to_size_t (z : Z) : Z := (z mod 2 ^ 32)%Z.

(** [effector_[i] = v] *)
Definition effector_set (i : nat) (v : Z) (eff : nat -> Z) : outcome (nat -> Z) :=
  if i <? effector_size then Done (upd eff i v) else Undefined.

(** [for (std::size_t i = start; i < start + count; i++) body(i)] on the
    effector array. *)
Fixpoint effector_loop (start count : nat)
         (body : nat -> (nat -> Z) -> outcome (nat -> Z)) (eff : nat -> Z)
  : outcome (nat -> Z) :=
  match count with
  | O => Done eff
  | S c =>
      match body start eff with
      | Done eff' => effector_loop (S start) c body eff'
      | Undefined => Undefined
      end
  end.

Section Effector.

Variable NUM_PWM_PINS : nat.
Variable NUM_SBUS_CH : nat.

(** [int NUM_SBUS = std::min(static_cast<std::size_t>(NUM_SBUS_CH),
                             effector_.size() - NUM_PWM_PINS);] *)
Definition NUM_SBUS : nat :=
  Z.to_nat (Z.min (to_size_t (Z.of_nat NUM_SBUS_CH))
                  (to_size_t (Z.of_nat effector_size - Z.of_nat NUM_PWM_PINS))).

(** Lines 252-257. *)
Definition pack_effector (pwm sbus : nat -> Z) (eff : nat -> Z) : outcome (nat -> Z) :=
  match effector_loop 0 NUM_PWM_PINS (fun i e => effector_set i (pwm i) e) eff with
  | Done eff1 =>
      effector_loop 0 NUM_SBUS
                    (fun i e => effector_set (i + NUM_PWM_PINS) (sbus i) e) eff1
  | Undefined => Undefined
  end.

End Effector.

(** * Bytes, words and spans *)

Lemma u8_range (b : byte) : (0 <= u8 b < 256)%Z.
Proof.
  unfold u8. pose proof (Byte.to_N_bounded b). lia.
Qed.

Lemma u8_to_u8 (z : Z) : u8 (to_u8 z) = (z mod 256)%Z.
Proof.
  unfold u8, to_u8.
  assert (R : (0 <= z mod 256 < 256)%Z) by (apply Z.mod_pos_bound; lia).
  destruct (Byte.of_N (Z.to_N (z mod 256))) as [b|] eqn:E.
  - apply Byte.to_of_N in E. rewrite E. lia.
  - apply Byte.of_N_None_iff in E. lia.
Qed.

Lemma to_u8_u8 (b : byte) : to_u8 (u8 b) = b.
Proof.
  unfold to_u8. rewrite Z.mod_small by apply u8_range.
  unfold u8. rewrite N2Z.id, Byte.of_to_N. reflexivity.
Qed.

Lemma to_u16_range (z : Z) : (0 <= to_u16 z < 65536)%Z.
Proof. unfold to_u16. apply Z.mod_pos_bound. lia. Qed.

Lemma to_u16_small (z : Z) : (0 <= z < 65536)%Z -> to_u16 z = z.
Proof. intros. unfold to_u16. apply Z.mod_small. assumption. Qed.

(** [hi << 8 | lo] is [256 * hi + lo] when [lo] is a byte. *)
Lemma lor_shiftl_8 (hi lo : Z) :
  (0 <= lo < 256)%Z -> Z.lor (Z.shiftl hi 8) lo = (256 * hi + lo)%Z.
Proof.
  intros Hlo.
  rewrite Z.shiftl_mul_pow2 by lia.
  assert (L : Z.land (hi * 2 ^ 8) lo = 0%Z).
  { apply Z.bits_inj'. intros n Hn.
    rewrite Z.land_spec, Z.bits_0.
    destruct (Z.lt_ge_cases n 8) as [Lt|Ge].
    - rewrite Z.mul_pow2_bits_low by lia. reflexivity.
    - rewrite <- (Z.mod_small lo (2 ^ 8)) by (change (2 ^ 8)%Z with 256%Z; lia).
      rewrite Z.mod_pow2_bits_high by lia. apply andb_false_r. }
  rewrite <- Z.lxor_lor, <- Z.add_nocarry_lxor by exact L.
  change (2 ^ 8)%Z with 256%Z. lia.
Qed.

(** The two bytes written by the code, read back the way the code reads
    them, give the 16-bit value again. *)
Lemma be16_roundtrip (c : Z) :
  (0 <= c < 65536)%Z ->
  to_u16 (Z.lor (Z.shiftl (u8 (to_u8 (Z.shiftr c 8))) 8) (u8 (to_u8 c))) = c.
Proof.
  intros Hc.
  rewrite lor_shiftl_8 by (rewrite u8_to_u8; apply Z.mod_pos_bound; lia).
  rewrite !u8_to_u8, Z.shiftr_div_pow2 by lia.
  change (2 ^ 8)%Z with 256%Z.
  assert (0 <= c / 256 < 256)%Z
    by (split; [apply Z.div_pos; lia | apply Z.div_lt_upper_bound; lia]).
  rewrite (Z.mod_small (c / 256)) by assumption.
  rewrite to_u16_small; pose proof (Z.div_mod c 256 ltac:(lia));
    pose proof (Z.mod_pos_bound c 256 ltac:(lia)); lia.
Qed.

Lemma upd_same {A : Type} (f : nat -> A) (i : nat) (v : A) : upd f i v i = v.
Proof. unfold upd. rewrite Nat.eqb_refl. reflexivity. Qed.

Lemma upd_other {A : Type} (f : nat -> A) (i j : nat) (v : A) :
  j <> i -> upd f i v j = f j.
Proof.
  intros N. unfold upd. destruct (Nat.eqb_spec j i); [contradiction | reflexivity].
Qed.

Lemma span_ext (p q : nat -> byte) (len : nat) :
  (forall j, j < len -> p j = q j) -> span p len = span q len.
Proof.
  intros H. unfold span. apply map_ext_in. intros j Hj.
  apply in_seq in Hj. apply H. lia.
Qed.

Lemma reads_are_not_writes (l : list nat) : existsb is_write (map EeRead l) = false.
Proof.
  induction l as [|a l IH]; [reflexivity | exact IH].
Qed.

Lemma map_seq_const {A : Type} (f : nat -> A) (c : A) (s n : nat) :
  (forall j, s <= j < s + n -> f j = c) -> map f (seq s n) = repeat c n.
Proof.
  revert s. induction n as [|n IH]; intros s H; simpl.
  - reflexivity.
  - rewrite H by lia. f_equal. apply IH. intros j Hj. apply H. lia.
Qed.

Lemma fill_spec {A : Type} (src : nat -> A) (count start : nat) (f : nat -> A) (j : nat) :
  fill f src start count j =
  if (start <=? j) && (j <? start + count) then src j else f j.
Proof.
  revert start f. induction count as [|c IH]; intros start f; simpl.
  - destruct (start <=? j) eqn:E1; simpl; [|reflexivity].
    destruct (Nat.ltb_spec j (start + 0)); [|reflexivity].
    apply Nat.leb_le in E1. lia.
  - rewrite IH.
    destruct (Nat.leb_spec (S start) j), (Nat.leb_spec start j),
      (Nat.ltb_spec j (S start + c)), (Nat.ltb_spec j (start + S c));
      simpl; try lia; try reflexivity;
      try (rewrite upd_other by lia; reflexivity).
    assert (j = start) by lia. subst j. apply upd_same.
Qed.

Lemma fill_inside {A : Type} (f src : nat -> A) (start count j : nat) :
  start <= j < start + count -> fill f src start count j = src j.
Proof.
  intros H. rewrite fill_spec.
  destruct (Nat.leb_spec start j), (Nat.ltb_spec j (start + count));
    simpl; try lia; reflexivity.
Qed.

Lemma fill_outside {A : Type} (f src : nat -> A) (start count j : nat) :
  j < start \/ start + count <= j -> fill f src start count j = f j.
Proof.
  intros H. rewrite fill_spec.
  destruct (Nat.leb_spec start j), (Nat.ltb_spec j (start + count));
    simpl; try lia; reflexivity.
Qed.

(** * Running the monad *)

Lemma bind_Done {A B : Type} (m : M A) (k : A -> M B) (g g' : Globals) (a : A) :
  m g = Done (a, g') -> bind m k g = k a g'.
Proof. intros E. unfold bind. rewrite E. reflexivity. Qed.

Lemma Globals_eta (g : Globals) :
  mkGlobals (EEPROM g) (eeprom_log g) (msg_log g) (telem_params g) (param_idx_ g)
            (param_buf g) (chk_computed g) (chk_read g) (chk_buf g) = g.
Proof. destruct g. reflexivity. Qed.

(** After a step, the fields of the new state are brought back to normal
    form, so that the states of a long run stay small. *)
Ltac norm_state :=
  cbn [EEPROM eeprom_log msg_log telem_params param_idx_ param_buf
       chk_computed chk_read chk_buf].

Ltac run_step L := erewrite bind_Done; [| L]; norm_state.

Lemma for_range_S (start count : nat) (body : nat -> M unit) :
  for_range start (S count) body = (body start ;; for_range (S start) count body).
Proof. reflexivity. Qed.

(** * The primitives and the loops of the store *)

Section StoreFacts.

Variable N : nat.
Variable Compute : list byte -> Z.

Local Abbreviation SIZE := (PARAM_STORE_SIZE N).

Lemma PARAM_STORE_SIZE_eq : SIZE = 3 + 4 * N + 2.
Proof. unfold PARAM_STORE_SIZE, sizeof_header, sizeof_float, sizeof_uint16. lia. Qed.

Lemma checksum_offset_eq : checksum_offset N = SIZE - 2.
Proof. rewrite PARAM_STORE_SIZE_eq. unfold checksum_offset. lia. Qed.

Lemma buf_get_run (i : nat) (g : Globals) :
  i < SIZE -> buf_get N i g = Done (param_buf g i, g).
Proof.
  intros H. unfold buf_get. apply Nat.ltb_lt in H. rewrite H. reflexivity.
Qed.

Lemma buf_set_run (i : nat) (v : byte) (g : Globals) :
  i < SIZE ->
  buf_set N i v g =
  Done (tt, mkGlobals (EEPROM g) (eeprom_log g) (msg_log g) (telem_params g)
              (param_idx_ g) (upd (param_buf g) i v)
              (chk_computed g) (chk_read g) (chk_buf g)).
Proof.
  intros H. unfold buf_set. apply Nat.ltb_lt in H. rewrite H. reflexivity.
Qed.

Lemma checksum_Compute_run (len : nat) (g : Globals) :
  len <= SIZE ->
  checksum_Compute N Compute len g = Done (Compute (span (param_buf g) len), g).
Proof.
  intros H. unfold checksum_Compute. apply Nat.leb_le in H. rewrite H. reflexivity.
Qed.

(** The loop of lines 76-78. *)
Lemma load_loop_run (count start : nat) (g : Globals) :
  start + count <= SIZE ->
  for_range start count (fun i => b <- EEPROM_read i ;; buf_set N i b) g =
  Done (tt, mkGlobals (EEPROM g) (eeprom_log g ++ map EeRead (seq start count))
              (msg_log g) (telem_params g) (param_idx_ g)
              (fill (param_buf g) (EEPROM g) start count)
              (chk_computed g) (chk_read g) (chk_buf g)).
Proof.
  revert start g. induction count as [|c IH]; intros start g H.
  - simpl. rewrite app_nil_r, Globals_eta. reflexivity.
  - rewrite for_range_S. erewrite bind_Done.
    2:{ unfold bind, EEPROM_read. rewrite buf_set_run by lia. reflexivity. }
    rewrite IH by lia. simpl. rewrite <- app_assoc. reflexivity.
Qed.

(** The loops of lines 90-92 and 124-126. *)
Lemma zero_loop_run (count start : nat) (g : Globals) :
  start + count + 3 <= SIZE ->
  for_range start count (fun i => buf_set N (i + 3) x00) g =
  Done (tt, mkGlobals (EEPROM g) (eeprom_log g) (msg_log g) (telem_params g)
              (param_idx_ g)
              (fill (param_buf g) (fun _ => x00) (start + 3) count)
              (chk_computed g) (chk_read g) (chk_buf g)).
Proof.
  revert start g. induction count as [|c IH]; intros start g H.
  - simpl. rewrite Globals_eta. reflexivity.
  - rewrite for_range_S. erewrite bind_Done.
    2:{ apply buf_set_run. lia. }
    rewrite IH by lia. reflexivity.
Qed.

(** The loops of lines 102-104 and 136-138. *)
Lemma store_loop_run (count start : nat) (g : Globals) :
  start + count <= SIZE ->
  for_range start count (fun i => b <- buf_get N i ;; EEPROM_write i b) g =
  Done (tt, mkGlobals (fill (EEPROM g) (param_buf g) start count)
              (eeprom_log g ++ map (fun i => EeWrite i (param_buf g i)) (seq start count))
              (msg_log g) (telem_params g) (param_idx_ g) (param_buf g)
              (chk_computed g) (chk_read g) (chk_buf g)).
Proof.
  revert start g. induction count as [|c IH]; intros start g H.
  - simpl. rewrite app_nil_r, Globals_eta. reflexivity.
  - rewrite for_range_S. erewrite bind_Done.
    2:{ unfold bind. rewrite buf_get_run by lia. reflexivity. }
    rewrite IH by lia. simpl. rewrite <- app_assoc. reflexivity.
Qed.

Lemma payload_size_eq : sizeof_header + N * sizeof_float = checksum_offset N.
Proof. unfold sizeof_header, sizeof_float, checksum_offset. lia. Qed.

Lemma compute_checksum_run (g : Globals) :
  compute_checksum N Compute g =
  Done (tt, mkGlobals (EEPROM g) (eeprom_log g) (msg_log g) (telem_params g)
              (param_idx_ g) (param_buf g)
              (to_u16 (Compute (span (param_buf g) (sizeof_header + N * sizeof_float))))
              (chk_read g) (chk_buf g)).
Proof.
  unfold compute_checksum. erewrite bind_Done.
  2:{ apply checksum_Compute_run. rewrite PARAM_STORE_SIZE_eq.
      unfold sizeof_header, sizeof_float. lia. }
  reflexivity.
Qed.

Lemma put_checksum_run (g : Globals) :
  put_checksum N g =
  Done (tt, mkGlobals (EEPROM g) (eeprom_log g) (msg_log g) (telem_params g)
              (param_idx_ g) (put_chk N (param_buf g) (chk_computed g))
              (chk_computed g) (chk_read g)
              (to_u8 (Z.shiftr (chk_computed g) 8), to_u8 (chk_computed g))).
Proof.
  pose proof PARAM_STORE_SIZE_eq as S.
  unfold put_checksum, bind, gets, set_chk_buf, get_chk_buf. cbn beta iota.
  cbn [chk_computed chk_buf fst snd].
  rewrite buf_set_run by lia. cbn beta iota. cbn [chk_buf fst snd].
  rewrite buf_set_run by lia. reflexivity.
Qed.

Lemma read_checksum_run (g : Globals) :
  read_checksum N g =
  Done (tt, mkGlobals (EEPROM g) (eeprom_log g) (msg_log g) (telem_params g)
              (param_idx_ g) (param_buf g) (chk_computed g)
              (to_u16 (Z.lor (Z.shiftl (u8 (param_buf g (SIZE - 2))) 8)
                             (u8 (param_buf g (SIZE - 1)))))
              (param_buf g (SIZE - 2), param_buf g (SIZE - 1))).
Proof.
  pose proof PARAM_STORE_SIZE_eq as S.
  unfold read_checksum, bind, set_chk_buf, get_chk_buf, set_chk_read.
  rewrite buf_get_run by lia. cbn beta iota.
  rewrite buf_get_run by lia. reflexivity.
Qed.

Lemma header_mismatch_run (g : Globals) :
  header_mismatch N g = Done (negb (is_header_valid (param_buf g)), g).
Proof.
  pose proof PARAM_STORE_SIZE_eq as S.
  unfold header_mismatch, bind, ret.
  rewrite !buf_get_run by lia.
  unfold is_header_valid, PARAM_STORE_HEADER.
  destruct (Byte.eqb (param_buf g 0) x42), (Byte.eqb (param_buf g 1) x46),
    (Byte.eqb (param_buf g 2) x53); reflexivity.
Qed.

Lemma reset_store_run (g : Globals) :
  reset_store N Compute g = Done (tt, reset_state N Compute g).
Proof.
  pose proof PARAM_STORE_SIZE_eq as S.
  unfold reset_store.
  do 3 (run_step ltac:(apply buf_set_run; lia)).
  unfold for_.
  run_step ltac:(apply zero_loop_run; rewrite S; unfold sizeof_float; lia).
  run_step ltac:(apply compute_checksum_run).
  run_step ltac:(apply put_checksum_run).
  run_step ltac:(apply store_loop_run; lia).
  reflexivity.
Qed.

(** [TelemInit] always returns, and this is what it returns. *)
Lemma TelemInit_run (d : TelemData) (g : Globals) :
  TelemInit N Compute (Some d) g =
  let g1 := loaded N g in
  if negb (is_header_valid (param_buf g1)) then
    Done (Some d,
          reset_state N Compute
            (with_msg (Info "Parameter storage not initialized, initializing...") g1))
  else
    let g2 := validated N Compute g1 in
    if negb (Z.eqb (chk_computed g2) (chk_read g2)) then
      Done (Some d,
            reset_state N Compute
              (with_msg (Warning "Parameter storage corrupted, resetting...") g2))
    else
      Done (Some (decoded N d (param_buf g2)),
            pushed (param (decoded N d (param_buf g2))) g2).
Proof.
  pose proof PARAM_STORE_SIZE_eq as S.
  unfold TelemInit, for_.
  erewrite bind_Done; [| apply load_loop_run; lia].
  fold (loaded N g).
  erewrite bind_Done; [| apply header_mismatch_run].
  cbv zeta.
  destruct (negb (is_header_valid (param_buf (loaded N g)))).
  - erewrite bind_Done; [| reflexivity].
    erewrite bind_Done; [| apply reset_store_run].
    reflexivity.
  - erewrite bind_Done; [| apply compute_checksum_run].
    rewrite (bind_Done (read_checksum N) _ _ (validated N Compute (loaded N g)) tt)
      by (rewrite read_checksum_run; reflexivity).
    unfold bind at 1. unfold gets at 1.
    unfold bind at 1. unfold gets at 1.
    destruct (negb (Z.eqb (chk_computed (validated N Compute (loaded N g)))
                          (chk_read (validated N Compute (loaded N g))))).
    + erewrite bind_Done; [| reflexivity].
      erewrite bind_Done; [| apply reset_store_run].
      reflexivity.
    + unfold bind, memcpy_from_buf.
      assert (L : (sizeof_header + N * sizeof_float <=? SIZE) = true)
        by (apply Nat.leb_le; rewrite S; unfold sizeof_header, sizeof_float; lia).
      rewrite L. reflexivity.
Qed.

Lemma TelemInit_null (g : Globals) :
  TelemInit N Compute None g = Done (None, g).
Proof. reflexivity. Qed.

Lemma TelemUpdate_null (idx : Z) (v : float32) (g : Globals) :
  TelemUpdate N Compute idx v None g = Done (None, g).
Proof. reflexivity. Qed.

(** No update pending: only [param_idx_] is assigned. *)
Lemma TelemUpdate_negative (idx : Z) (v : float32) (d : TelemData) (g : Globals) :
  (idx < 0)%Z ->
  TelemUpdate N Compute idx v (Some d) g =
  Done (Some d,
        mkGlobals (EEPROM g) (eeprom_log g) (msg_log g) (telem_params g) idx
                  (param_buf g) (chk_computed g) (chk_read g) (chk_buf g)).
Proof.
  intros H. unfold TelemUpdate, bind, set_param_idx_, gets. cbn [param_idx_].
  apply Z.leb_gt in H. rewrite H. reflexivity.
Qed.

(** An index at or past the end of [ptr->param]: the guard of line 271 lets
    it through and line 273 indexes the array with it. *)
Lemma TelemUpdate_past_end (i : nat) (v : float32) (d : TelemData) (g : Globals) :
  N <= i ->
  TelemUpdate N Compute (Z.of_nat i) v (Some d) g = Undefined.
Proof.
  intros H. unfold TelemUpdate, bind, set_param_idx_, gets. cbn [param_idx_].
  assert (L : (0 <=? Z.of_nat i)%Z = true) by (apply Z.leb_le; lia).
  rewrite L, Nat2Z.id. unfold param_assign.
  apply Nat.ltb_ge in H. rewrite H. reflexivity.
Qed.

Lemma memcpy_to_buf_run (off : nat) (f : float32) (g : Globals) :
  off + 4 <= SIZE ->
  memcpy_to_buf N off f g =
  Done (tt, mkGlobals (EEPROM g) (eeprom_log g) (msg_log g) (telem_params g)
              (param_idx_ g) (put_float (param_buf g) off f)
              (chk_computed g) (chk_read g) (chk_buf g)).
Proof.
  intros H. unfold memcpy_to_buf, for_, sizeof_float.
  rewrite !for_range_S.
  do 4 (run_step ltac:(apply buf_set_run; lia)).
  reflexivity.
Qed.

(** One byte of the buffer written to the device. *)
Lemma store_byte_run (addr : nat) (g : Globals) :
  addr < SIZE ->
  (b <- buf_get N addr ;; EEPROM_write addr b) g =
  Done (tt, mkGlobals (upd (EEPROM g) addr (param_buf g addr))
              (eeprom_log g ++ [EeWrite addr (param_buf g addr)])
              (msg_log g) (telem_params g) (param_idx_ g) (param_buf g)
              (chk_computed g) (chk_read g) (chk_buf g)).
Proof.
  intros H. unfold bind. rewrite buf_get_run by exact H. reflexivity.
Qed.

Lemma bind_assoc {A B C : Type} (m : M A) (k : A -> M B) (h : B -> M C) (g : Globals) :
  (x <- m ;; (y <- k x ;; h y)) g = (y <- (x <- m ;; k x) ;; h y) g.
Proof.
  unfold bind. destruct (m g) as [[a g']|]; reflexivity.
Qed.

(** The loop of lines 286-290. *)
Lemma store_field_run (i : nat) (g : Globals) :
  i < N ->
  for_ sizeof_float
       (fun k => let addr := k + sizeof_header + i * sizeof_float in
                 b <- buf_get N addr ;; EEPROM_write addr b) g =
  let a := fun k => k + sizeof_header + i * sizeof_float in
  let pb := param_buf g in
  Done (tt, mkGlobals
              (upd (upd (upd (upd (EEPROM g) (a 0) (pb (a 0))) (a 1) (pb (a 1)))
                        (a 2) (pb (a 2))) (a 3) (pb (a 3)))
              (eeprom_log g ++ [EeWrite (a 0) (pb (a 0)); EeWrite (a 1) (pb (a 1));
                                EeWrite (a 2) (pb (a 2)); EeWrite (a 3) (pb (a 3))])
              (msg_log g) (telem_params g) (param_idx_ g) (param_buf g)
              (chk_computed g) (chk_read g) (chk_buf g)).
Proof.
  intros H. pose proof PARAM_STORE_SIZE_eq as S.
  unfold for_, sizeof_float at 1. rewrite !for_range_S. cbv zeta.
  do 4 (run_step ltac:(apply store_byte_run; unfold sizeof_header, sizeof_float; lia)).
  cbn [for_range]. unfold ret.
  rewrite <- !app_assoc. reflexivity.
Qed.

(** An index inside [ptr->param]. *)
Lemma TelemUpdate_run (i : nat) (v : float32) (d : TelemData) (g : Globals) :
  i < N ->
  TelemUpdate N Compute (Z.of_nat i) v (Some d) g =
  Done (Some (mkTelemData (upd (param d) i v)), updated N Compute i v g).
Proof.
  intros H. pose proof PARAM_STORE_SIZE_eq as S.
  unfold TelemUpdate.
  erewrite bind_Done; [| reflexivity].
  unfold bind at 1. unfold gets at 1. cbn [param_idx_].
  assert (L : (0 <=? Z.of_nat i)%Z = true) by (apply Z.leb_le; lia).
  rewrite L, Nat2Z.id. cbv zeta.
  erewrite bind_Done;
    [| unfold param_assign; apply Nat.ltb_lt in H; rewrite H; reflexivity].
  cbn [param]. rewrite upd_same.
  run_step ltac:(apply memcpy_to_buf_run; unfold sizeof_header, sizeof_float; lia).
  run_step ltac:(apply compute_checksum_run).
  run_step ltac:(apply put_checksum_run).
  run_step ltac:(apply store_field_run; exact H).
  cbv zeta. norm_state.
  do 2 (rewrite bind_assoc; run_step ltac:(apply store_byte_run; lia)).
  unfold ret, updated. cbv zeta. rewrite <- !app_assoc. reflexivity.
Qed.

(** ** What the load sees *)

Lemma loaded_buf (g : Globals) (j : nat) :
  j < SIZE -> param_buf (loaded N g) j = EEPROM g j.
Proof. intros H. unfold loaded. cbn [param_buf]. apply fill_inside. lia. Qed.

Lemma is_header_valid_ext (p q : nat -> byte) :
  (forall j, j < 3 -> p j = q j) -> is_header_valid p = is_header_valid q.
Proof.
  intros H. unfold is_header_valid. rewrite (H 0), (H 1), (H 2) by lia. reflexivity.
Qed.

Lemma loaded_header (g : Globals) :
  is_header_valid (param_buf (loaded N g)) = is_header_valid (EEPROM g).
Proof.
  apply is_header_valid_ext. intros j Hj. apply loaded_buf.
  rewrite PARAM_STORE_SIZE_eq. lia.
Qed.

Lemma be16_read (hi lo : byte) :
  to_u16 (Z.lor (Z.shiftl (u8 hi) 8) (u8 lo)) = be16 hi lo.
Proof.
  pose proof (u8_range hi). pose proof (u8_range lo).
  rewrite lor_shiftl_8 by assumption. unfold be16. apply to_u16_small. lia.
Qed.

Lemma validated_computed (g : Globals) :
  chk_computed (validated N Compute (loaded N g)) = fresh_checksum N Compute (EEPROM g).
Proof.
  unfold validated, fresh_checksum. cbn [chk_computed param_buf].
  rewrite payload_size_eq. f_equal. f_equal. apply span_ext. intros j Hj.
  apply (loaded_buf g). rewrite PARAM_STORE_SIZE_eq. unfold checksum_offset in Hj. lia.
Qed.

Lemma validated_read (g : Globals) :
  chk_read (validated N Compute (loaded N g)) = stored_checksum N (EEPROM g).
Proof.
  pose proof PARAM_STORE_SIZE_eq as S.
  unfold validated, stored_checksum. cbn [chk_read].
  rewrite be16_read, !loaded_buf by lia.
  rewrite checksum_offset_eq. do 2 f_equal. lia.
Qed.

(** The three ways through [TelemInit], told apart by the stored bytes. *)
Lemma TelemInit_classified (d : TelemData) (g : Globals) :
  TelemInit N Compute (Some d) g =
  Done
    match classify N Compute (EEPROM g) with
    | Uninitialized =>
        (Some d,
         reset_state N Compute
           (with_msg (Info "Parameter storage not initialized, initializing...")
                     (loaded N g)))
    | Corrupted =>
        (Some d,
         reset_state N Compute
           (with_msg (Warning "Parameter storage corrupted, resetting...")
                     (validated N Compute (loaded N g))))
    | Valid =>
        (Some (decoded N d (param_buf (loaded N g))),
         pushed (param (decoded N d (param_buf (loaded N g))))
                (validated N Compute (loaded N g)))
    end.
Proof.
  rewrite TelemInit_run. cbv zeta.
  rewrite loaded_header, validated_computed, validated_read.
  unfold classify, checksum_matches.
  destruct (is_header_valid (EEPROM g)); cbn [negb]; [| reflexivity].
  destruct (Z.eqb (fresh_checksum N Compute (EEPROM g)) (stored_checksum N (EEPROM g)));
    reflexivity.
Qed.

Lemma classify_Valid (e : nat -> byte) :
  classify N Compute e = Valid <-> record_valid N Compute e = true.
Proof.
  unfold classify, record_valid.
  destruct (is_header_valid e), (checksum_matches N Compute e); cbn;
    split; intros H; try reflexivity; discriminate.
Qed.

(** ** The reset *)

Lemma span_snoc2 (p : nat -> byte) (n : nat) :
  span p (n + 2) = span p n ++ [p n; p (n + 1)].
Proof.
  unfold span. rewrite seq_app, map_app. cbn [seq map Nat.add].
  rewrite Nat.add_1_r. reflexivity.
Qed.

Lemma put_chk_payload (pb : nat -> byte) (c : Z) (j : nat) :
  j < checksum_offset N -> put_chk N pb c j = pb j.
Proof.
  intros H. rewrite checksum_offset_eq in H. unfold put_chk.
  rewrite !upd_other by lia. reflexivity.
Qed.

Lemma put_chk_hi (pb : nat -> byte) (c : Z) :
  put_chk N pb c (checksum_offset N) = to_u8 (Z.shiftr c 8).
Proof.
  pose proof PARAM_STORE_SIZE_eq as S.
  rewrite checksum_offset_eq. unfold put_chk.
  rewrite upd_other by lia. apply upd_same.
Qed.

Lemma put_chk_lo (pb : nat -> byte) (c : Z) :
  put_chk N pb c (checksum_offset N + 1) = to_u8 c.
Proof.
  pose proof PARAM_STORE_SIZE_eq as S.
  rewrite checksum_offset_eq. unfold put_chk.
  replace (SIZE - 2 + 1) with (SIZE - 1) by lia. apply upd_same.
Qed.

Lemma reset_payload_span (pb : nat -> byte) :
  span (reset_payload N pb) (checksum_offset N) = fresh_payload N.
Proof.
  unfold span, checksum_offset, fresh_payload, reset_payload, sizeof_float.
  rewrite seq_app, map_app. cbn [seq map Nat.add app].
  rewrite !fill_outside by lia.
  replace (N * 4) with (4 * N) by lia.
  rewrite (map_seq_const _ x00) by (intros j Hj; apply fill_inside; lia).
  reflexivity.
Qed.

Lemma reset_chk_fresh (pb : nat -> byte) :
  reset_chk N Compute pb = to_u16 (Compute (fresh_payload N)).
Proof.
  unfold reset_chk. rewrite payload_size_eq, reset_payload_span. reflexivity.
Qed.

Lemma reset_buf_span (pb : nat -> byte) :
  span (reset_buf N Compute pb) (checksum_offset N + 2) = fresh_record N Compute.
Proof.
  rewrite span_snoc2. unfold reset_buf.
  rewrite put_chk_hi, put_chk_lo.
  rewrite (span_ext _ (reset_payload N pb)) by (intros j Hj; apply put_chk_payload; exact Hj).
  rewrite reset_payload_span, reset_chk_fresh.
  unfold fresh_record. cbv zeta.
  rewrite Z.shiftr_div_pow2 by lia. reflexivity.
Qed.

Lemma reset_state_sync (g : Globals) (j : nat) :
  j < SIZE -> EEPROM (reset_state N Compute g) j = param_buf (reset_state N Compute g) j.
Proof.
  intros H. unfold reset_state. cbn [EEPROM param_buf]. apply fill_inside. lia.
Qed.

(** Whatever the state before it, the reset leaves the fresh record. *)
Lemma reset_state_record (g : Globals) :
  record N (EEPROM (reset_state N Compute g)) = fresh_record N Compute.
Proof.
  unfold record. rewrite <- (reset_buf_span (param_buf g)).
  apply span_ext. intros j Hj. rewrite reset_state_sync; [reflexivity |].
  rewrite PARAM_STORE_SIZE_eq. unfold checksum_offset in Hj. lia.
Qed.

(** ** Validity of what is written *)

Lemma be16_written (c : Z) :
  (0 <= c < 65536)%Z -> be16 (to_u8 (Z.shiftr c 8)) (to_u8 c) = c.
Proof.
  intros H. rewrite <- be16_read. apply be16_roundtrip. exact H.
Qed.

(** A device whose payload is the image [pb], followed by the checksum of
    that image high byte first, holds a valid record. *)
Lemma record_valid_of_image (e pb : nat -> byte) :
  is_header_valid e = true ->
  (forall j, j < checksum_offset N -> e j = pb j) ->
  e (checksum_offset N) =
    to_u8 (Z.shiftr (to_u16 (Compute (span pb (checksum_offset N)))) 8) ->
  e (checksum_offset N + 1) = to_u8 (to_u16 (Compute (span pb (checksum_offset N)))) ->
  record_valid N Compute e = true.
Proof.
  intros Hh Hp Hhi Hlo. unfold record_valid. rewrite Hh. cbn [andb].
  unfold checksum_matches, fresh_checksum, stored_checksum.
  rewrite Hhi, Hlo, be16_written by apply to_u16_range.
  rewrite (span_ext e pb) by exact Hp. apply Z.eqb_refl.
Qed.

Lemma reset_buf_header (pb : nat -> byte) :
  is_header_valid (reset_buf N Compute pb) = true.
Proof.
  unfold is_header_valid, reset_buf.
  rewrite !put_chk_payload by (unfold checksum_offset; lia).
  unfold reset_payload. rewrite !fill_outside by lia.
  reflexivity.
Qed.

Lemma reset_state_valid (g : Globals) :
  record_valid N Compute (EEPROM (reset_state N Compute g)) = true.
Proof.
  pose proof PARAM_STORE_SIZE_eq as S.
  assert (C : checksum_offset N = 3 + 4 * N) by reflexivity.
  apply (record_valid_of_image _ (reset_payload N (param_buf g))).
  - rewrite <- (reset_buf_header (param_buf g)).
    apply is_header_valid_ext. intros j Hj. rewrite reset_state_sync by lia. reflexivity.
  - intros j Hj. rewrite reset_state_sync by lia.
    unfold reset_state. cbn [param_buf]. apply put_chk_payload. exact Hj.
  - rewrite reset_state_sync by lia. unfold reset_state. cbn [param_buf].
    unfold reset_buf. rewrite put_chk_hi. unfold reset_chk.
    rewrite payload_size_eq. reflexivity.
  - rewrite reset_state_sync by lia. unfold reset_state. cbn [param_buf].
    unfold reset_buf. rewrite put_chk_lo. unfold reset_chk.
    rewrite payload_size_eq. reflexivity.
Qed.

(** ** The incremental update *)

Lemma put_float_inside (pb : nat -> byte) (off : nat) (f : float32) (k : nat) :
  k < 4 -> put_float pb off f (off + k) = float_byte f k.
Proof.
  intros H. unfold put_float.
  destruct k as [|[|[|[|k]]]]; try lia; cbn [float_byte];
    rewrite ?upd_other by lia; apply upd_same.
Qed.

Lemma put_float_outside (pb : nat -> byte) (off : nat) (f : float32) (j : nat) :
  j < off \/ off + 4 <= j -> put_float pb off f j = pb j.
Proof.
  intros H. unfold put_float. rewrite !upd_other by lia. reflexivity.
Qed.

Lemma updated_buf (i : nat) (v : float32) (g : Globals) :
  param_buf (updated N Compute i v g) =
  put_chk N (put_float (param_buf g) (sizeof_header + i * sizeof_float) v)
          (chk_computed (updated N Compute i v g)).
Proof. reflexivity. Qed.

Lemma updated_computed (i : nat) (v : float32) (g : Globals) :
  chk_computed (updated N Compute i v g) =
  to_u16 (Compute (span (param_buf (updated N Compute i v g)) (checksum_offset N))).
Proof.
  rewrite updated_buf.
  rewrite (span_ext _ (put_float (param_buf g) (sizeof_header + i * sizeof_float) v))
    by (intros j Hj; apply put_chk_payload; exact Hj).
  unfold updated. cbn [chk_computed]. rewrite payload_size_eq. reflexivity.
Qed.

Lemma in_footprint (i j : nat) :
  In j (update_footprint N i) <->
  param_offset i <= j < param_offset i + 4 \/
  checksum_offset N <= j < checksum_offset N + 2.
Proof.
  unfold update_footprint. cbn [In]. lia.
Qed.

(** The device after an update: the footprint holds what the buffer holds,
    every other byte is as before. *)
Lemma updated_eeprom_in (i : nat) (v : float32) (g : Globals) (j : nat) :
  In j (update_footprint N i) ->
  EEPROM (updated N Compute i v g) j = param_buf (updated N Compute i v g) j.
Proof.
  intros H. apply in_footprint in H.
  pose proof PARAM_STORE_SIZE_eq as S.
  unfold param_offset, checksum_offset in H.
  unfold updated. cbv zeta. cbn [EEPROM param_buf].
  unfold sizeof_header, sizeof_float. unfold upd at 1 2 3 4 5 6.
  repeat match goal with
         | |- context [Nat.eqb ?a ?b] =>
             destruct (Nat.eqb_spec a b); [subst j; reflexivity |]
         end.
  lia.
Qed.

Lemma updated_eeprom_out (i : nat) (v : float32) (g : Globals) (j : nat) :
  ~ In j (update_footprint N i) ->
  EEPROM (updated N Compute i v g) j = EEPROM g j.
Proof.
  intros H. rewrite in_footprint in H.
  pose proof PARAM_STORE_SIZE_eq as S.
  unfold param_offset, checksum_offset in H.
  unfold updated. cbv zeta. cbn [EEPROM].
  unfold sizeof_header, sizeof_float.
  rewrite !upd_other by lia. reflexivity.
Qed.

Lemma updated_buf_out (i : nat) (v : float32) (g : Globals) (j : nat) :
  ~ In j (update_footprint N i) ->
  param_buf (updated N Compute i v g) j = param_buf g j.
Proof.
  intros H. rewrite in_footprint in H.
  pose proof PARAM_STORE_SIZE_eq as S.
  unfold param_offset, checksum_offset in H.
  rewrite updated_buf. unfold put_chk. rewrite !upd_other by lia.
  apply put_float_outside. unfold sizeof_header, sizeof_float. lia.
Qed.

Lemma updated_buf_field (i : nat) (v : float32) (g : Globals) (k : nat) :
  i < N -> k < 4 ->
  param_buf (updated N Compute i v g) (param_offset i + k) = float_byte v k.
Proof.
  intros Hi Hk. rewrite updated_buf.
  rewrite put_chk_payload by (unfold param_offset, checksum_offset; lia).
  replace (param_offset i + k) with (sizeof_header + i * sizeof_float + k)
    by (unfold param_offset, sizeof_header, sizeof_float; lia).
  apply put_float_inside. exact Hk.
Qed.

Lemma footprint_dec (i j : nat) :
  {In j (update_footprint N i)} + {~ In j (update_footprint N i)}.
Proof. apply in_dec. apply Nat.eq_dec. Qed.

Lemma updated_sync (i : nat) (v : float32) (g : Globals) :
  buf_in_sync N g -> buf_in_sync N (updated N Compute i v g).
Proof.
  intros H j Hj. destruct (footprint_dec i j) as [I|O].
  - rewrite updated_eeprom_in by exact I. reflexivity.
  - rewrite updated_eeprom_out, updated_buf_out by exact O. apply H. exact Hj.
Qed.

Lemma updated_valid (i : nat) (v : float32) (g : Globals) :
  i < N ->
  buf_in_sync N g ->
  is_header_valid (EEPROM g) = true ->
  record_valid N Compute (EEPROM (updated N Compute i v g)) = true.
Proof.
  intros Hi Hs Hh. pose proof PARAM_STORE_SIZE_eq as S.
  assert (C : checksum_offset N = 3 + 4 * N) by reflexivity.
  apply (record_valid_of_image _ (param_buf (updated N Compute i v g))).
  - rewrite <- Hh. apply is_header_valid_ext. intros j Hj.
    apply updated_eeprom_out. rewrite in_footprint. unfold param_offset. lia.
  - intros j Hj. symmetry. apply updated_sync; [exact Hs | lia].
  - rewrite <- updated_computed.
    rewrite updated_eeprom_in by (apply in_footprint; lia).
    rewrite updated_buf. apply put_chk_hi.
  - rewrite <- updated_computed.
    rewrite updated_eeprom_in by (apply in_footprint; lia).
    rewrite updated_buf. apply put_chk_lo.
Qed.

Lemma updated_decode (i : nat) (v : float32) (g : Globals) (k : nat) :
  i < N -> k < N ->
  decode_param (EEPROM (updated N Compute i v g)) k =
  if Nat.eqb k i then v else decode_param (EEPROM g) k.
Proof.
  intros Hi Hk. unfold decode_param, float_at.
  destruct (Nat.eqb_spec k i) as [E|NE].
  - subst k.
    rewrite !updated_eeprom_in by (apply in_footprint; lia).
    rewrite <- (Nat.add_0_r (param_offset i)) at 1.
    rewrite !updated_buf_field by lia.
    destruct v; reflexivity.
  - rewrite !updated_eeprom_out
      by (rewrite in_footprint; unfold param_offset, checksum_offset; lia).
    reflexivity.
Qed.

End StoreFacts.

(** * The Fletcher checksum and single bit flips *)

Lemma byte_sum_app (l1 l2 : list byte) :
  byte_sum (l1 ++ l2) = (byte_sum l1 + byte_sum l2)%Z.
Proof.
  induction l1 as [|b l IH]; cbn [app byte_sum fold_right].
  - reflexivity.
  - fold (byte_sum (l ++ l2)). fold (byte_sum l). rewrite IH. lia.
Qed.

Lemma fletcher_fold_range (l : list byte) (s : Z * Z) :
  (0 <= fst s < 255)%Z -> (0 <= snd s < 255)%Z ->
  (0 <= fst (fold_left fletcher_step l s) < 255)%Z /\
  (0 <= snd (fold_left fletcher_step l s) < 255)%Z.
Proof.
  revert s. induction l as [|b l IH]; intros s H0 H1; cbn [fold_left].
  - split; assumption.
  - apply IH; unfold fletcher_step; cbn [fst snd]; apply Z.mod_pos_bound; lia.
Qed.

(** The first running sum is the sum of the bytes modulo 255. *)
Lemma fletcher_fold_fst (l : list byte) (s : Z * Z) :
  (fst (fold_left fletcher_step l s) mod 255 = (fst s + byte_sum l) mod 255)%Z.
Proof.
  revert s. induction l as [|b l IH]; intros s; cbn [fold_left byte_sum fold_right].
  - rewrite Z.add_0_r. reflexivity.
  - fold (byte_sum l). rewrite IH. unfold fletcher_step. cbn [fst].
    rewrite Zplus_mod_idemp_l. f_equal. lia.
Qed.

Lemma Fletcher16_range (l : list byte) : (0 <= Fletcher16 l < 65536)%Z.
Proof.
  unfold Fletcher16. cbv zeta.
  destruct (fletcher_fold_range l (0, 0)%Z) as [H0 H1]; cbn [fst snd]; try lia.
  rewrite lor_shiftl_8 by lia. lia.
Qed.

(** The low byte of the checksum is the sum of the bytes modulo 255. *)
Lemma Fletcher16_low (l : list byte) :
  (to_u16 (Fletcher16 l) mod 256 = byte_sum l mod 255)%Z.
Proof.
  rewrite to_u16_small by apply Fletcher16_range.
  unfold Fletcher16. cbv zeta.
  destruct (fletcher_fold_range l (0, 0)%Z) as [H0 H1]; cbn [fst snd]; try lia.
  rewrite lor_shiftl_8 by lia.
  rewrite Z.add_comm, Z.mul_comm, Z_mod_plus_full.
  rewrite Z.mod_small by lia.
  rewrite <- (Z.mod_small _ 255 H0), fletcher_fold_fst. reflexivity.
Qed.

Lemma span_S (p : nat -> byte) (n : nat) : span p (S n) = span p n ++ [p n].
Proof.
  unfold span. rewrite seq_S, map_app. reflexivity.
Qed.

Lemma byte_sum_span_upd (e : nat -> byte) (a : nat) (b : byte) (n : nat) :
  a < n ->
  byte_sum (span (upd e a b) n) = (byte_sum (span e n) - u8 (e a) + u8 b)%Z.
Proof.
  induction n as [|n IH]; intros H; [lia |].
  rewrite !span_S, !byte_sum_app. cbn [byte_sum fold_right].
  destruct (Nat.eq_dec a n) as [E|NE].
  - subst a. rewrite upd_same.
    rewrite (span_ext (upd e n b) e)
      by (intros j Hj; apply upd_other; lia).
    lia.
  - rewrite IH by lia. rewrite upd_other by lia. lia.
Qed.

(** Flipping one bit moves a byte by a power of two, never by a multiple
    of 255. *)
Lemma flip_bit_delta (b : byte) (k : nat) :
  k < 8 -> ((u8 (flip_bit b k) - u8 b) mod 255 <> 0)%Z.
Proof.
  intros H.
  do 8 (destruct k as [|k]; [destruct b; vm_compute; discriminate |]).
  lia.
Qed.

Lemma flip_bit_neq (b : byte) (k : nat) : k < 8 -> flip_bit b k <> b.
Proof.
  intros H E. apply (flip_bit_delta b k H). rewrite E, Z.sub_diag. reflexivity.
Qed.

(** A single bit flip inside a span changes its Fletcher checksum. *)
Lemma Fletcher16_flip (e : nat -> byte) (a k n : nat) :
  a < n -> k < 8 ->
  to_u16 (Fletcher16 (span (flip_at e a k) n)) <> to_u16 (Fletcher16 (span e n)).
Proof.
  intros Ha Hk E.
  apply (f_equal (fun z => (z mod 256)%Z)) in E.
  rewrite !Fletcher16_low in E.
  unfold flip_at in E. rewrite byte_sum_span_upd in E by exact Ha.
  apply (flip_bit_delta (e a) k Hk).
  set (s := byte_sum (span e n)) in *.
  set (x := u8 (flip_bit (e a) k)) in *. set (y := u8 (e a)) in *.
  replace (x - y)%Z with ((s - y + x) - s)%Z by lia.
  rewrite Zminus_mod, E, Z.sub_diag. reflexivity.
Qed.

(** * The store as a whole *)

Section StoreClaims.

Variable N : nat.
Variable Compute : list byte -> Z.

Local Abbreviation SIZE := (PARAM_STORE_SIZE N).

Lemma decoded_param (d : TelemData) (g : Globals) (k : nat) :
  k < N ->
  param (decoded N d (param_buf (loaded N g))) k = decode_param (EEPROM g) k.
Proof.
  intros H. pose proof (PARAM_STORE_SIZE_eq N) as S.
  unfold decoded, decode_param, float_at, param_offset, sizeof_header, sizeof_float.
  cbn [param]. apply Nat.ltb_lt in H as L. rewrite L.
  rewrite !loaded_buf by lia.
  f_equal; f_equal; lia.
Qed.

(** What a load of a valid record ends in. *)
Lemma TelemInit_valid (d : TelemData) (g : Globals) :
  record_valid N Compute (EEPROM g) = true ->
  TelemInit N Compute (Some d) g =
  Done (Some (decoded N d (param_buf (loaded N g))),
        pushed (param (decoded N d (param_buf (loaded N g))))
               (validated N Compute (loaded N g))).
Proof.
  intros H. apply classify_Valid in H.
  rewrite TelemInit_classified, H. reflexivity.
Qed.

(** What a load of anything else ends in: the caller's data as it was and
    the store reset. *)
Lemma TelemInit_reset (d : TelemData) (g : Globals) :
  classify N Compute (EEPROM g) <> Valid ->
  exists g0, TelemInit N Compute (Some d) g = Done (Some d, reset_state N Compute g0).
Proof.
  intros H. rewrite TelemInit_classified.
  destruct (classify N Compute (EEPROM g)); [eexists; reflexivity .. | contradiction].
Qed.

Lemma reset_state_ready (g : Globals) : store_ready N Compute (reset_state N Compute g).
Proof.
  split.
  - intros j Hj. symmetry. apply reset_state_sync. exact Hj.
  - apply reset_state_valid.
Qed.

Lemma TelemInit_ready (d : TelemData) (g : Globals) :
  exists g' d',
    TelemInit N Compute (Some d) g = Done (Some d', g') /\ store_ready N Compute g'.
Proof.
  destruct (classify N Compute (EEPROM g)) eqn:C.
  1,2: destruct (TelemInit_reset d g) as [g0 E]; [rewrite C; discriminate |];
       exists (reset_state N Compute g0), d; split; [exact E | apply reset_state_ready].
  apply classify_Valid in C. do 2 eexists. split; [apply TelemInit_valid; exact C |].
  split.
  - intros j Hj. cbn [pushed validated param_buf EEPROM].
    rewrite (loaded_buf N g j Hj). reflexivity.
  - exact C.
Qed.

Lemma record_valid_header (e : nat -> byte) :
  record_valid N Compute e = true -> is_header_valid e = true.
Proof. unfold record_valid. intros H. apply andb_prop in H. apply H. Qed.

Lemma updated_ready (i : nat) (v : float32) (g : Globals) :
  i < N -> store_ready N Compute g -> store_ready N Compute (updated N Compute i v g).
Proof.
  intros Hi [Hs Hv]. split.
  - apply updated_sync. exact Hs.
  - apply updated_valid; [exact Hi | exact Hs | apply record_valid_header; exact Hv].
Qed.

Lemma TelemUpdate_ready (idx : Z) (v : float32) (d : TelemData) (g : Globals) :
  (idx < Z.of_nat N)%Z ->
  store_ready N Compute g ->
  exists g' d',
    TelemUpdate N Compute idx v (Some d) g = Done (Some d', g') /\
    store_ready N Compute g'.
Proof.
  intros Hi Hr. destruct (Z.neg_nonneg_cases idx) as [Neg|Pos].
  - do 2 eexists. split; [apply TelemUpdate_negative; exact Neg | exact Hr].
  - exists (updated N Compute (Z.to_nat idx) v g),
           (mkTelemData (upd (param d) (Z.to_nat idx) v)).
    split; [| apply updated_ready; [lia | exact Hr]].
    rewrite <- (Z2Nat.id idx Pos) at 1. apply TelemUpdate_run. lia.
Qed.

Lemma frames_ready (ups : list (Z * float32)) (d : TelemData) (g : Globals) :
  Forall (fun u => (fst u < Z.of_nat N)%Z) ups ->
  store_ready N Compute g ->
  exists g' d',
    frames N Compute ups (Some d) g = Done (Some d', g') /\ store_ready N Compute g'.
Proof.
  revert d g. induction ups as [|[idx v] ups IH]; intros d g Hu Hr.
  - exists g, d. split; [reflexivity | exact Hr].
  - inversion Hu as [|u us Hidx Hrest]; subst. cbn [fst] in Hidx.
    destruct (TelemUpdate_ready idx v d g Hidx Hr) as [g1 [d1 [E1 R1]]].
    destruct (IH d1 g1 Hrest R1) as [g2 [d2 [E2 R2]]].
    exists g2, d2. split; [| exact R2].
    cbn [frames]. rewrite (bind_Done _ _ _ _ _ E1). exact E2.
Qed.

(** ** The claims *)

(** C10.  Called with a null data pointer, [TelemInit] and [TelemUpdate]
    return at once: the state they return is the state they were given, so
    nothing was read from or written to the EEPROM, the parameter buffer and
    the checksum variables are as they were and no message was emitted. *)
Theorem null_pointer_returns_at_once (idx : Z) (v : float32) (g : Globals) :
  TelemInit N Compute None g = Done (None, g) /\
  TelemUpdate N Compute idx v None g = Done (None, g).
Proof.
  split; [apply TelemInit_null | apply TelemUpdate_null].
Qed.

(** C1, as amended.  For every negative index (the answer of the link when
    no parameter was updated) and any value, the update path of
    [TelemUpdate] is not entered: the call returns with the device, the log
    of what was done to it, the parameter buffer and the caller's array as
    they were. *)
Theorem negative_index_is_rejected (idx : Z) (v : float32) (d : TelemData) (g : Globals) :
  (idx < 0)%Z -> update_rejected N Compute idx v d g.
Proof.
  intros H. eexists. split; [apply TelemUpdate_negative; exact H |].
  cbn [EEPROM eeprom_log param_buf]. repeat split.
Qed.

(** C5.  When the stored header is the magic constant and the stored
    checksum equals the one freshly computed over the stored header and
    parameter bytes, [TelemInit] decodes the stored parameter bytes into the
    caller's array and does no write: the device is as it was, the log grows
    by the reads of the record only, and no message is emitted. *)
Theorem valid_load_decodes_and_writes_nothing (d : TelemData) (g : Globals) :
  record_valid N Compute (EEPROM g) = true ->
  exists g' d',
    TelemInit N Compute (Some d) g = Done (Some d', g') /\
    (forall i, i < N -> param d' i = decode_param (EEPROM g) i) /\
    EEPROM g' = EEPROM g /\
    (exists ops,
        eeprom_log g' = eeprom_log g ++ ops /\
        ops = map EeRead (seq 0 (checksum_offset N + 2)) /\
        existsb is_write ops = false) /\
    msg_log g' = msg_log g.
Proof.
  intros H. do 2 eexists. split; [apply TelemInit_valid; exact H |].
  cbn [pushed validated loaded EEPROM eeprom_log msg_log].
  split; [| split; [reflexivity | split; [| reflexivity]]].
  - intros i Hi. apply decoded_param. exact Hi.
  - exists (map EeRead (seq 0 SIZE)). split; [reflexivity |].
    rewrite checksum_offset_eq.
    replace (SIZE - 2 + 2) with SIZE by (rewrite (PARAM_STORE_SIZE_eq N); lia).
    split; [reflexivity | apply reads_are_not_writes].
Qed.

(** C4.  For an index inside the array, [TelemUpdate] writes to the device
    exactly six bytes, in this order: the four bytes of parameter field
    [index], at offsets [3+4*index] to [3+4*index+3], which then hold the
    bytes of the new value, and the two checksum bytes, at offsets [3+4N] and
    [3+4N+1].  Every other byte of the device, the header and the other
    parameter fields among them, is as it was. *)
Theorem update_writes_its_footprint_only
        (idx : Z) (v : float32) (d : TelemData) (g : Globals) :
  (0 <= idx < Z.of_nat N)%Z ->
  exists g' d',
    TelemUpdate N Compute idx v (Some d) g = Done (Some d', g') /\
    eeprom_log g' =
      eeprom_log g ++
      map (fun a => EeWrite a (EEPROM g' a)) (update_footprint N (Z.to_nat idx)) /\
    (forall k, k < 4 -> EEPROM g' (param_offset (Z.to_nat idx) + k) = float_byte v k) /\
    (forall a, ~ In a (update_footprint N (Z.to_nat idx)) -> EEPROM g' a = EEPROM g a).
Proof.
  intros [H0 H1]. pose proof (PARAM_STORE_SIZE_eq N) as S.
  assert (Hi : Z.to_nat idx < N) by lia.
  set (i := Z.to_nat idx) in *.
  exists (updated N Compute i v g), (mkTelemData (upd (param d) i v)).
  split; [| split; [| split]].
  - subst i. rewrite <- (Z2Nat.id idx H0) at 1. apply TelemUpdate_run. exact Hi.
  - unfold update_footprint. cbn [map].
    rewrite !updated_eeprom_in by (apply in_footprint; lia).
    unfold updated. cbv zeta. cbn [eeprom_log param_buf].
    unfold param_offset, sizeof_header, sizeof_float.
    rewrite checksum_offset_eq.
    replace (0 + 3 + i * 4) with (3 + 4 * i) by lia.
    replace (1 + 3 + i * 4) with (3 + 4 * i + 1) by lia.
    replace (2 + 3 + i * 4) with (3 + 4 * i + 2) by lia.
    replace (3 + 3 + i * 4) with (3 + 4 * i + 3) by lia.
    replace (SIZE - 2 + 1) with (SIZE - 1) by lia.
    replace (i * 4) with (4 * i) by lia.
    reflexivity.
  - intros k Hk.
    rewrite updated_eeprom_in by (apply in_footprint; lia).
    apply updated_buf_field; assumption.
  - intros a Ha. apply updated_eeprom_out. exact Ha.
Qed.

(** C3.  Starting from any valid stored record: load it, apply an update
    [(index, value)] with [index] inside the array, then load again, from
    whatever state of the memory as long as the device is the one the update
    left.  The array of the second load is the array of the first load at
    every position except [index], where it is [value]. *)
Theorem update_then_load_round_trip
        (idx : Z) (v : float32) (d : TelemData) (g : Globals) :
  record_valid N Compute (EEPROM g) = true ->
  (0 <= idx < Z.of_nat N)%Z ->
  exists g1 d1 g2 d2,
    TelemInit N Compute (Some d) g = Done (Some d1, g1) /\
    TelemUpdate N Compute idx v (Some d1) g1 = Done (Some d2, g2) /\
    forall h dh,
      EEPROM h = EEPROM g2 ->
      exists g3 d3,
        TelemInit N Compute (Some dh) h = Done (Some d3, g3) /\
        forall k, k < N ->
                  param d3 k = if Nat.eqb k (Z.to_nat idx) then v else param d1 k.
Proof.
  intros Hv [H0 H1].
  assert (Hi : Z.to_nat idx < N) by lia.
  set (i := Z.to_nat idx) in *.
  set (d1 := decoded N d (param_buf (loaded N g))).
  set (g1 := pushed (param d1) (validated N Compute (loaded N g))).
  assert (R1 : store_ready N Compute g1).
  { split; [| exact Hv].
    intros j Hj. subst g1. cbn [pushed validated param_buf EEPROM].
    rewrite (loaded_buf N g j Hj). reflexivity. }
  exists g1, d1, (updated N Compute i v g1), (mkTelemData (upd (param d1) i v)).
  split; [apply TelemInit_valid; exact Hv |].
  split; [subst i; rewrite <- (Z2Nat.id idx H0) at 1; apply TelemUpdate_run; exact Hi |].
  intros h dh Eh.
  assert (Vh : record_valid N Compute (EEPROM h) = true)
    by (rewrite Eh; apply updated_ready; assumption).
  do 2 eexists. split; [apply TelemInit_valid; exact Vh |].
  intros k Hk. rewrite decoded_param by exact Hk.
  rewrite Eh, updated_decode by assumption.
  destruct (Nat.eqb k i); [reflexivity |].
  subst d1. rewrite decoded_param by exact Hk. reflexivity.
Qed.

(** C6.  Wherever the code computes the record checksum, it computes it
    over the [3+4N] bytes of header and parameters, the two checksum bytes
    left out, and it keeps it big-endian at offset [3+4N]:
    - after any [TelemInit], [chk_computed] is the checksum of the first
      [3+4N] bytes of the buffer;
    - the validation of a record with a valid header compares the checksum
      of the stored bytes [[0, 3+4N)] with the two stored bytes at [3+4N]
      read as a big-endian value, which is what [chk_read] holds afterwards;
    - after an initialisation or a recovery, and after an update with an
      index inside the array, the device holds at [3+4N] and [3+4N+1] the
      high and the low byte of [chk_computed], and after an initialisation
      or a recovery its first [3+4N] bytes are those of the buffer. *)
Theorem checksum_span_and_byte_order (d : TelemData) (g : Globals) :
  (exists g' d',
      TelemInit N Compute (Some d) g = Done (Some d', g') /\
      chk_computed g' = to_u16 (Compute (span (param_buf g') (checksum_offset N))) /\
      (is_header_valid (EEPROM g) = true ->
       chk_computed (validated N Compute (loaded N g)) =
         to_u16 (Compute (span (EEPROM g) (checksum_offset N))) /\
       chk_read (validated N Compute (loaded N g)) =
         be16 (EEPROM g (checksum_offset N)) (EEPROM g (checksum_offset N + 1)) /\
       chk_read g' =
         be16 (EEPROM g (checksum_offset N)) (EEPROM g (checksum_offset N + 1))) /\
      (classify N Compute (EEPROM g) <> Valid ->
       span (EEPROM g') (checksum_offset N) = span (param_buf g') (checksum_offset N) /\
       EEPROM g' (checksum_offset N) = to_u8 (chk_computed g' / 256) /\
       EEPROM g' (checksum_offset N + 1) = to_u8 (chk_computed g') /\
       be16 (EEPROM g' (checksum_offset N)) (EEPROM g' (checksum_offset N + 1)) =
         chk_computed g')) /\
  (forall i v,
      i < N ->
      exists g' d',
        TelemUpdate N Compute (Z.of_nat i) v (Some d) g = Done (Some d', g') /\
        chk_computed g' = to_u16 (Compute (span (param_buf g') (checksum_offset N))) /\
        EEPROM g' (checksum_offset N) = to_u8 (chk_computed g' / 256) /\
        EEPROM g' (checksum_offset N + 1) = to_u8 (chk_computed g') /\
        be16 (EEPROM g' (checksum_offset N)) (EEPROM g' (checksum_offset N + 1)) =
          chk_computed g').
Proof.
  pose proof (PARAM_STORE_SIZE_eq N) as S.
  assert (C : checksum_offset N = 3 + 4 * N) by reflexivity.
  assert (RS : forall g0,
             chk_computed (reset_state N Compute g0) =
               to_u16 (Compute (span (param_buf (reset_state N Compute g0))
                                     (checksum_offset N))) /\
             span (EEPROM (reset_state N Compute g0)) (checksum_offset N) =
               span (param_buf (reset_state N Compute g0)) (checksum_offset N) /\
             EEPROM (reset_state N Compute g0) (checksum_offset N) =
               to_u8 (chk_computed (reset_state N Compute g0) / 256) /\
             EEPROM (reset_state N Compute g0) (checksum_offset N + 1) =
               to_u8 (chk_computed (reset_state N Compute g0))).
  { intros g0. repeat split.
    - unfold reset_state. cbv zeta. cbn [chk_computed param_buf].
      unfold reset_buf.
      rewrite (span_ext _ (reset_payload N (param_buf g0)))
        by (intros j Hj; apply put_chk_payload; exact Hj).
      unfold reset_chk. rewrite payload_size_eq. reflexivity.
    - apply span_ext. intros j Hj. apply reset_state_sync. lia.
    - rewrite reset_state_sync by lia. unfold reset_state. cbv zeta.
      cbn [param_buf chk_computed]. unfold reset_buf.
      rewrite put_chk_hi, Z.shiftr_div_pow2 by lia. reflexivity.
    - rewrite reset_state_sync by lia. unfold reset_state. cbv zeta.
      cbn [param_buf chk_computed]. unfold reset_buf.
      apply put_chk_lo. }
  assert (BE : forall c, be16 (to_u8 (to_u16 c / 256)) (to_u8 (to_u16 c)) = to_u16 c).
  { intros c. rewrite <- (be16_written (to_u16 c)) at 3 by apply to_u16_range.
    rewrite Z.shiftr_div_pow2 by lia. reflexivity. }
  split.
  - rewrite TelemInit_classified.
    assert (HV : is_header_valid (EEPROM g) = true ->
                 chk_computed (validated N Compute (loaded N g)) =
                   to_u16 (Compute (span (EEPROM g) (checksum_offset N))) /\
                 chk_read (validated N Compute (loaded N g)) =
                   be16 (EEPROM g (checksum_offset N)) (EEPROM g (checksum_offset N + 1)))
      by (intros _; split; [apply validated_computed | apply validated_read]).
    destruct (classify N Compute (EEPROM g)) eqn:K.
    + do 2 eexists. split; [reflexivity |].
      destruct (RS (with_msg (Info "Parameter storage not initialized, initializing...")
                             (loaded N g))) as [R1 [R2 [R3 R4]]].
      split; [exact R1 |]. split.
      * intros Hh. unfold classify in K. rewrite Hh in K.
        destruct (checksum_matches N Compute (EEPROM g)); discriminate.
      * intros _. repeat split; try assumption.
        rewrite R3, R4, R1. apply BE.
    + do 2 eexists. split; [reflexivity |].
      destruct (RS (with_msg (Warning "Parameter storage corrupted, resetting...")
                             (validated N Compute (loaded N g)))) as [R1 [R2 [R3 R4]]].
      split; [exact R1 |]. split.
      * intros Hh. destruct (HV Hh) as [V1 V2]. repeat split; assumption.
      * intros _. repeat split; try assumption.
        rewrite R3, R4, R1. apply BE.
    + do 2 eexists. split; [reflexivity |].
      cbn [pushed chk_computed param_buf chk_read].
      split; [| split].
      * unfold validated. cbn [chk_computed param_buf].
        rewrite payload_size_eq. reflexivity.
      * intros Hh. destruct (HV Hh) as [V1 V2]. repeat split; assumption.
      * intros NV. contradiction.
  - intros i v Hi. do 2 eexists. split; [apply TelemUpdate_run; exact Hi |].
    assert (U1 := updated_computed N Compute i v g).
    assert (U3 : EEPROM (updated N Compute i v g) (checksum_offset N) =
                 to_u8 (chk_computed (updated N Compute i v g) / 256)).
    { rewrite updated_eeprom_in by (apply in_footprint; lia).
      rewrite updated_buf, put_chk_hi, Z.shiftr_div_pow2 by lia. reflexivity. }
    assert (U4 : EEPROM (updated N Compute i v g) (checksum_offset N + 1) =
                 to_u8 (chk_computed (updated N Compute i v g))).
    { rewrite updated_eeprom_in by (apply in_footprint; lia).
      rewrite updated_buf. apply put_chk_lo. }
    repeat split; try assumption.
    rewrite U3, U4, U1. apply BE.
Qed.

Lemma TelemInit_ready_again (d : TelemData) (g : Globals) :
  store_ready N Compute g ->
  exists g' d',
    TelemInit N Compute (Some d) g = Done (Some d', g') /\ EEPROM g' = EEPROM g.
Proof.
  intros [_ Hv]. do 2 eexists. split; [apply TelemInit_valid; exact Hv | reflexivity].
Qed.

(** C8.  A load that finds an invalid header and a load that finds a
    checksum mismatch leave the same persisted record, byte for byte: the
    fresh record, that is the magic header, all-zero parameters and their
    checksum.  Doing it twice in a row changes nothing: a second load right
    after either of them leaves the fresh record again, and so does the reset
    sequence itself when run twice from any state. *)
Theorem recovery_paths_agree_and_repeat
        (gU gC : Globals) (dU dC : TelemData) :
  classify N Compute (EEPROM gU) = Uninitialized ->
  classify N Compute (EEPROM gC) = Corrupted ->
  exists gU' gC',
    TelemInit N Compute (Some dU) gU = Done (Some dU, gU') /\
    TelemInit N Compute (Some dC) gC = Done (Some dC, gC') /\
    record N (EEPROM gU') = fresh_record N Compute /\
    record N (EEPROM gC') = record N (EEPROM gU') /\
    (forall d, exists g'' d'',
        TelemInit N Compute (Some d) gU' = Done (Some d'', g'') /\
        record N (EEPROM g'') = fresh_record N Compute) /\
    (forall d, exists g'' d'',
        TelemInit N Compute (Some d) gC' = Done (Some d'', g'') /\
        record N (EEPROM g'') = fresh_record N Compute) /\
    (forall g, exists g1 g2,
        reset_store N Compute g = Done (tt, g1) /\
        reset_store N Compute g1 = Done (tt, g2) /\
        record N (EEPROM g1) = fresh_record N Compute /\
        record N (EEPROM g2) = record N (EEPROM g1)).
Proof.
  intros HU HC.
  destruct (TelemInit_reset dU gU) as [u EU]; [rewrite HU; discriminate |].
  destruct (TelemInit_reset dC gC) as [c EC]; [rewrite HC; discriminate |].
  exists (reset_state N Compute u), (reset_state N Compute c).
  split; [exact EU |]. split; [exact EC |].
  split; [apply reset_state_record |].
  split; [rewrite !reset_state_record; reflexivity |].
  split; [| split].
  - intros d.
    destruct (TelemInit_ready_again d (reset_state N Compute u)) as [g'' [d'' [E F]]];
      [apply reset_state_ready |].
    exists g'', d''. split; [exact E |]. rewrite F. apply reset_state_record.
  - intros d.
    destruct (TelemInit_ready_again d (reset_state N Compute c)) as [g'' [d'' [E F]]];
      [apply reset_state_ready |].
    exists g'', d''. split; [exact E |]. rewrite F. apply reset_state_record.
  - intros g.
    exists (reset_state N Compute g), (reset_state N Compute (reset_state N Compute g)).
    rewrite !reset_store_run, !reset_state_record. repeat split.
Qed.

(** C9.  From any state, after [TelemInit] (which initialises, recovers or
    finds a valid record) and after any number of frames of [TelemUpdate] on
    which the link reports no update or an update with an index inside the
    array, the persisted record is valid: its first three bytes are the magic
    header and its stored checksum is the one freshly computed over the bytes
    [[0, 3+4N)].  A load that follows classifies it as Valid. *)
Theorem persisted_record_stays_valid
        (ups : list (Z * float32)) (d : TelemData) (g : Globals) :
  Forall (fun u => (fst u < Z.of_nat N)%Z) ups ->
  exists g1 d1 g2 d2,
    TelemInit N Compute (Some d) g = Done (Some d1, g1) /\
    frames N Compute ups (Some d1) g1 = Done (Some d2, g2) /\
    record_valid N Compute (EEPROM g1) = true /\
    record_valid N Compute (EEPROM g2) = true /\
    classify N Compute (EEPROM g2) = Valid.
Proof.
  intros Hu.
  destruct (TelemInit_ready d g) as [g1 [d1 [E1 R1]]].
  destruct (frames_ready ups d1 g1 Hu R1) as [g2 [d2 [E2 R2]]].
  exists g1, d1, g2, d2.
  split; [exact E1 |]. split; [exact E2 |].
  split; [apply R1 |]. split; [apply R2 |].
  apply classify_Valid. apply R2.
Qed.

End StoreClaims.

(** * The store with the Fletcher checksum *)

Lemma byte_eqb_neq (a b : byte) : a <> b -> Byte.eqb a b = false.
Proof.
  intros H. destruct (Byte.eqb a b) eqn:E; [| reflexivity].
  apply Byte.byte_dec_bl in E. contradiction.
Qed.

Lemma is_header_valid_bytes (e : nat -> byte) :
  is_header_valid e = true -> e 0 = x42 /\ e 1 = x46 /\ e 2 = x53.
Proof.
  unfold is_header_valid. intros H.
  apply andb_prop in H. destruct H as [H H2].
  apply andb_prop in H. destruct H as [H0 H1].
  repeat split; apply Byte.byte_dec_bl; assumption.
Qed.

(** A flipped header bit: the header is no longer the magic constant. *)
Lemma header_flip_invalid (e : nat -> byte) (a k : nat) :
  is_header_valid e = true -> a < 3 -> k < 8 ->
  is_header_valid (flip_at e a k) = false.
Proof.
  intros H Ha Hk. destruct (is_header_valid_bytes e H) as [H0 [H1 H2]].
  pose proof (flip_bit_neq (e a) k Hk) as F.
  unfold is_header_valid, flip_at.
  destruct a as [|[|[|a]]]; try lia.
  - rewrite upd_same.
    rewrite (byte_eqb_neq (flip_bit (e 0) k) x42) by congruence. reflexivity.
  - rewrite upd_same.
    rewrite (byte_eqb_neq (flip_bit (e 1) k) x46) by congruence.
    rewrite andb_false_r. reflexivity.
  - rewrite upd_same.
    rewrite (byte_eqb_neq (flip_bit (e 2) k) x53) by congruence. apply andb_false_r.
Qed.

(** A flipped parameter bit: the header stands, the checksum no longer
    matches. *)
Lemma param_flip_corrupted (n : nat) (e : nat -> byte) (a k : nat) :
  record_valid n Fletcher16 e = true ->
  3 <= a < checksum_offset n -> k < 8 ->
  classify n Fletcher16 (flip_at e a k) = Corrupted.
Proof.
  intros H Ha Hk. unfold record_valid in H.
  apply andb_prop in H. destruct H as [Hh Hc].
  unfold checksum_matches in Hc. apply Z.eqb_eq in Hc.
  unfold classify.
  rewrite (is_header_valid_ext (flip_at e a k) e)
    by (intros j Hj; unfold flip_at; apply upd_other; lia).
  rewrite Hh.
  assert (M : checksum_matches n Fletcher16 (flip_at e a k) = false).
  { unfold checksum_matches. apply Z.eqb_neq.
    assert (St : stored_checksum n (flip_at e a k) = stored_checksum n e)
      by (unfold stored_checksum, flip_at; rewrite !upd_other by lia; reflexivity).
    rewrite St, <- Hc. unfold fresh_checksum.
    apply Fletcher16_flip; [lia | exact Hk]. }
  rewrite M. reflexivity.
Qed.

(** C7, as amended.  Take a valid stored record and flip one bit of it,
    leaving the stored checksum bytes as they are.  If the bit lies in the
    parameter bytes [[3, 3+4N)], the next load finds the header intact and
    the checksum wrong: it classifies the record as Corrupted and warns.  If
    the bit lies in the header bytes [[0, 3)], the header is no longer
    recognised and the load classifies the record as Uninitialized. *)
Theorem flipped_bit_is_detected
        (n : nat) (e : nat -> byte) (h : Globals) (d : TelemData) (a k : nat) :
  record_valid n Fletcher16 e = true ->
  EEPROM h = flip_at e a k ->
  a < checksum_offset n ->
  k < 8 ->
  classify n Fletcher16 (EEPROM h) = (if a <? 3 then Uninitialized else Corrupted) /\
  exists g',
    TelemInit n Fletcher16 (Some d) h = Done (Some d, g') /\
    msg_log g' =
      msg_log h ++
      [if a <? 3
       then Info "Parameter storage not initialized, initializing..."
       else Warning "Parameter storage corrupted, resetting...";
       Info ("done." ++ newline)].
Proof.
  intros Hv Eh Ha Hk.
  assert (C : classify n Fletcher16 (EEPROM h) =
              if a <? 3 then Uninitialized else Corrupted).
  { rewrite Eh. destruct (Nat.ltb_spec a 3) as [L|G].
    - unfold classify. rewrite header_flip_invalid; try assumption; [reflexivity |].
      unfold record_valid in Hv. apply andb_prop in Hv. apply Hv.
    - apply param_flip_corrupted; [exact Hv | lia | exact Hk]. }
  split; [exact C |].
  rewrite TelemInit_classified, C.
  destruct (a <? 3); eexists; (split; [reflexivity |]).
  - unfold reset_state, with_msg, loaded. cbv zeta. cbn [msg_log].
    rewrite <- app_assoc. reflexivity.
  - unfold reset_state, with_msg, validated, loaded. cbv zeta. cbn [msg_log].
    rewrite <- app_assoc. reflexivity.
Qed.

(** After a reset every persisted parameter is [0.0f]. *)
Lemma reset_decodes_zero (n : nat) (chk : list byte -> Z) (g : Globals) (i : nat) :
  i < n -> decode_param (EEPROM (reset_state n chk g)) i = float_zero.
Proof.
  intros H. pose proof (PARAM_STORE_SIZE_eq n) as S.
  assert (Z : forall j, 3 <= j < 3 + 4 * n -> EEPROM (reset_state n chk g) j = x00).
  { intros j Hj. rewrite reset_state_sync by lia.
    unfold reset_state. cbv zeta. cbn [param_buf]. unfold reset_buf.
    rewrite put_chk_payload by (unfold checksum_offset; lia).
    unfold reset_payload. apply fill_inside. unfold sizeof_float. lia. }
  unfold decode_param, float_at, param_offset.
  rewrite !Z by lia. reflexivity.
Qed.

(** A load that resets the store hands the caller's array back as it was. *)
Lemma TelemInit_reset_array (n : nat) (chk : list byte -> Z) (d : TelemData) (g : Globals) :
  classify n chk (EEPROM g) <> Valid ->
  exists g',
    TelemInit n chk (Some d) g = Done (Some d, g') /\
    forall i, i < n -> decode_param (EEPROM g') i = float_zero.
Proof.
  intros H. destruct (TelemInit_reset n chk d g H) as [g0 E].
  exists (reset_state n chk g0). split; [exact E |].
  intros i Hi. apply reset_decodes_zero. exact Hi.
Qed.

(** ** The scenario of the specification, N = 4 *)

Lemma scenario_ready_valid : record_valid 4 Fletcher16 (EEPROM scenario_ready) = true.
Proof. vm_compute. reflexivity. Qed.

Lemma erased_uninitialized : classify 4 Fletcher16 (EEPROM (boot erased)) = Uninitialized.
Proof. vm_compute. reflexivity. Qed.

(** C2.  The code at a failing input: an erased device (every byte [0xFF])
    and a caller whose array holds [1.0f] everywhere.  The load takes the
    Uninitialized path and persists all-zero parameters, and the caller's
    array comes back as it went in: position 0 holds [1.0f] while the
    persisted parameter 0 decodes to [0.0f].  The array is neither all zeros
    nor equal to what is persisted. *)
Theorem reset_leaves_caller_array_stale :
  classify 4 Fletcher16 (EEPROM (boot erased)) = Uninitialized /\
  (exists g',
      TelemInit 4 Fletcher16 (Some ones_data) (boot erased) = Done (Some ones_data, g') /\
      param ones_data 0 = f1_0 /\
      decode_param (EEPROM g') 0 = float_zero) /\
  ~ reset_zeroes_array 4 Fletcher16 ones_data (boot erased).
Proof.
  assert (NV : classify 4 Fletcher16 (EEPROM (boot erased)) <> Valid)
    by (rewrite erased_uninitialized; discriminate).
  split; [exact erased_uninitialized |]. split.
  - destruct (TelemInit_reset_array 4 Fletcher16 ones_data (boot erased) NV)
      as [g' [E Z]].
    exists g'. split; [exact E |]. split; [reflexivity | apply Z; lia].
  - intros H. destruct (H NV) as [g' [d' [E A]]].
    destruct (TelemInit_reset_array 4 Fletcher16 ones_data (boot erased) NV)
      as [g0 [E0 _]].
    rewrite E0 in E. injection E as Ed Eg. subst d'.
    destruct (A 0) as [A0 _]; [lia |]. discriminate A0.
Qed.

(** C1, the claim as stated fails: index 4 lies outside [[0, 4)], the guard
    of line 271 lets it through, and the call does not come back with the
    store as it was. *)
Lemma index_past_end_is_not_rejected :
  ~ (0 <= 4 < Z.of_nat 4)%Z /\
  ~ update_rejected 4 Fletcher16 4 f3_5 zero_data scenario_ready.
Proof.
  split; [lia |].
  intros [g' [E _]]. change 4%Z with (Z.of_nat 4) in E.
  rewrite TelemUpdate_past_end in E by lia. discriminate E.
Qed.

(** C7, the claim as stated fails: bit 0 of byte 0 of a valid record lies
    within the header and parameter bytes, and flipping it makes the load
    classify the record as Uninitialized, not as Corrupted. *)
Lemma header_bit_flip_is_not_corrupted :
  record_valid 4 Fletcher16 fresh4 = true /\
  0 < checksum_offset 4 /\
  0 < 8 /\
  classify 4 Fletcher16 header_flipped4 = Uninitialized /\
  (exists g',
      TelemInit 4 Fletcher16 (Some zero_data) (boot header_flipped4) =
        Done (Some zero_data, g') /\
      msg_log g' = [Info "Parameter storage not initialized, initializing...";
                    Info ("done." ++ newline)]) /\
  ~ single_bit_sensitivity 4 Fletcher16.
Proof.
  assert (U : classify 4 Fletcher16 header_flipped4 = Uninitialized)
    by (vm_compute; reflexivity).
  assert (O : 0 < checksum_offset 4) by (unfold checksum_offset; lia).
  split; [exact scenario_ready_valid |]. split; [exact O |]. split; [lia |].
  split; [exact U |]. split.
  { rewrite TelemInit_classified.
    change (EEPROM (boot header_flipped4)) with header_flipped4. rewrite U.
    eexists. split; reflexivity. }
  intros H.
  assert (C : classify 4 Fletcher16 (flip_at fresh4 0 0) = Corrupted).
  { apply H; [exact scenario_ready_valid | exact O | lia]. }
  fold header_flipped4 in C. rewrite U in C. discriminate C.
Qed.

(** ** The theorems at the scenario *)

Lemma negative_index_is_rejected_witness :
  (-1 < 0)%Z /\ update_rejected 4 Fletcher16 (-1) f3_5 zero_data scenario_ready.
Proof.
  split; [lia |].
  apply (negative_index_is_rejected 4 Fletcher16 (-1) f3_5 zero_data scenario_ready).
  lia.
Defined.

Lemma valid_load_decodes_and_writes_nothing_witness :
  record_valid 4 Fletcher16 (EEPROM scenario_ready) = true /\
  exists g' d',
    TelemInit 4 Fletcher16 (Some ones_data) scenario_ready = Done (Some d', g') /\
    (forall i, i < 4 -> param d' i = decode_param (EEPROM scenario_ready) i) /\
    EEPROM g' = EEPROM scenario_ready /\
    (exists ops,
        eeprom_log g' = eeprom_log scenario_ready ++ ops /\
        ops = map EeRead (seq 0 (checksum_offset 4 + 2)) /\
        existsb is_write ops = false) /\
    msg_log g' = msg_log scenario_ready.
Proof.
  split; [vm_compute; reflexivity |].
  apply (valid_load_decodes_and_writes_nothing 4 Fletcher16 ones_data scenario_ready).
  vm_compute; reflexivity.
Defined.

Lemma update_writes_its_footprint_only_witness :
  (0 <= 2 < Z.of_nat 4)%Z /\
  exists g' d',
    TelemUpdate 4 Fletcher16 2 f3_5 (Some zero_data) scenario_ready = Done (Some d', g') /\
    eeprom_log g' =
      eeprom_log scenario_ready ++
      map (fun a => EeWrite a (EEPROM g' a)) (update_footprint 4 (Z.to_nat 2)) /\
    (forall k, k < 4 -> EEPROM g' (param_offset (Z.to_nat 2) + k) = float_byte f3_5 k) /\
    (forall a, ~ In a (update_footprint 4 (Z.to_nat 2)) ->
               EEPROM g' a = EEPROM scenario_ready a).
Proof.
  split; [lia |].
  apply (update_writes_its_footprint_only 4 Fletcher16 2 f3_5 zero_data scenario_ready).
  lia.
Defined.

Lemma update_then_load_round_trip_witness :
  record_valid 4 Fletcher16 (EEPROM scenario_ready) = true /\
  (0 <= 2 < Z.of_nat 4)%Z /\
  exists g1 d1 g2 d2,
    TelemInit 4 Fletcher16 (Some ones_data) scenario_ready = Done (Some d1, g1) /\
    TelemUpdate 4 Fletcher16 2 f3_5 (Some d1) g1 = Done (Some d2, g2) /\
    forall h dh,
      EEPROM h = EEPROM g2 ->
      exists g3 d3,
        TelemInit 4 Fletcher16 (Some dh) h = Done (Some d3, g3) /\
        forall k, k < 4 ->
                  param d3 k = if Nat.eqb k (Z.to_nat 2) then f3_5 else param d1 k.
Proof.
  split; [vm_compute; reflexivity |]. split; [lia |].
  apply (update_then_load_round_trip 4 Fletcher16 2 f3_5 ones_data scenario_ready).
  - vm_compute; reflexivity.
  - lia.
Defined.

Lemma checksum_span_and_byte_order_witness :
  is_header_valid (EEPROM (boot param_flipped4)) = true /\
  classify 4 Fletcher16 (EEPROM (boot param_flipped4)) <> Valid /\
  2 < 4 /\
  (exists g' d',
      TelemInit 4 Fletcher16 (Some zero_data) (boot param_flipped4) = Done (Some d', g') /\
      chk_computed g' = to_u16 (Fletcher16 (span (param_buf g') (checksum_offset 4))) /\
      chk_read g' =
        be16 (param_flipped4 (checksum_offset 4)) (param_flipped4 (checksum_offset 4 + 1)) /\
      be16 (EEPROM g' (checksum_offset 4)) (EEPROM g' (checksum_offset 4 + 1)) =
        chk_computed g') /\
  (exists g' d',
      TelemUpdate 4 Fletcher16 (Z.of_nat 2) f3_5 (Some zero_data) (boot param_flipped4) =
        Done (Some d', g') /\
      chk_computed g' = to_u16 (Fletcher16 (span (param_buf g') (checksum_offset 4))) /\
      be16 (EEPROM g' (checksum_offset 4)) (EEPROM g' (checksum_offset 4 + 1)) =
        chk_computed g').
Proof.
  assert (Hh : is_header_valid (EEPROM (boot param_flipped4)) = true)
    by (vm_compute; reflexivity).
  assert (Hc : classify 4 Fletcher16 (EEPROM (boot param_flipped4)) <> Valid)
    by (vm_compute; discriminate).
  assert (Hi : 2 < 4) by lia.
  split; [exact Hh |]. split; [exact Hc |]. split; [exact Hi |].
  destruct (checksum_span_and_byte_order 4 Fletcher16 zero_data (boot param_flipped4))
    as [[g' [d' [E [C [V W]]]]] U].
  split.
  - exists g', d'. split; [exact E |]. split; [exact C |].
    split; [apply (V Hh) | apply (W Hc)].
  - destruct (U 2 f3_5 Hi) as [g2 [d2 [E2 [C2 [_ [_ B2]]]]]].
    exists g2, d2. split; [exact E2 |]. split; [exact C2 | exact B2].
Defined.

Lemma flipped_bit_is_detected_witness :
  record_valid 4 Fletcher16 fresh4 = true /\
  EEPROM (boot param_flipped4) = flip_at fresh4 5 0 /\
  5 < checksum_offset 4 /\
  0 < 8 /\
  classify 4 Fletcher16 (EEPROM (boot param_flipped4)) = Corrupted /\
  exists g',
    TelemInit 4 Fletcher16 (Some zero_data) (boot param_flipped4) =
      Done (Some zero_data, g') /\
    msg_log g' =
      msg_log (boot param_flipped4) ++
      [Warning "Parameter storage corrupted, resetting..."; Info ("done." ++ newline)].
Proof.
  split; [vm_compute; reflexivity |]. split; [reflexivity |].
  split; [unfold checksum_offset; lia |]. split; [lia |].
  apply (flipped_bit_is_detected 4 fresh4 (boot param_flipped4) zero_data 5 0).
  - vm_compute; reflexivity.
  - reflexivity.
  - unfold checksum_offset; lia.
  - lia.
Defined.

Lemma recovery_paths_agree_and_repeat_witness :
  classify 4 Fletcher16 (EEPROM (boot erased)) = Uninitialized /\
  classify 4 Fletcher16 (EEPROM (boot param_flipped4)) = Corrupted /\
  exists gU' gC',
    TelemInit 4 Fletcher16 (Some zero_data) (boot erased) = Done (Some zero_data, gU') /\
    TelemInit 4 Fletcher16 (Some ones_data) (boot param_flipped4) =
      Done (Some ones_data, gC') /\
    record 4 (EEPROM gU') = fresh_record 4 Fletcher16 /\
    record 4 (EEPROM gC') = record 4 (EEPROM gU') /\
    (forall d, exists g'' d'',
        TelemInit 4 Fletcher16 (Some d) gU' = Done (Some d'', g'') /\
        record 4 (EEPROM g'') = fresh_record 4 Fletcher16) /\
    (forall d, exists g'' d'',
        TelemInit 4 Fletcher16 (Some d) gC' = Done (Some d'', g'') /\
        record 4 (EEPROM g'') = fresh_record 4 Fletcher16) /\
    (forall g, exists g1 g2,
        reset_store 4 Fletcher16 g = Done (tt, g1) /\
        reset_store 4 Fletcher16 g1 = Done (tt, g2) /\
        record 4 (EEPROM g1) = fresh_record 4 Fletcher16 /\
        record 4 (EEPROM g2) = record 4 (EEPROM g1)).
Proof.
  split; [vm_compute; reflexivity |]. split; [vm_compute; reflexivity |].
  apply (recovery_paths_agree_and_repeat 4 Fletcher16
           (boot erased) (boot param_flipped4) zero_data ones_data).
  - vm_compute; reflexivity.
  - vm_compute; reflexivity.
Defined.

Lemma persisted_record_stays_valid_witness :
  Forall (fun u => (fst u < Z.of_nat 4)%Z) [(2%Z, f3_5); ((-1)%Z, f1_0); (0%Z, f1_0)] /\
  exists g1 d1 g2 d2,
    TelemInit 4 Fletcher16 (Some zero_data) (boot zeroed) = Done (Some d1, g1) /\
    frames 4 Fletcher16 [(2%Z, f3_5); ((-1)%Z, f1_0); (0%Z, f1_0)] (Some d1) g1 =
      Done (Some d2, g2) /\
    record_valid 4 Fletcher16 (EEPROM g1) = true /\
    record_valid 4 Fletcher16 (EEPROM g2) = true /\
    classify 4 Fletcher16 (EEPROM g2) = Valid.
Proof.
  assert (F : Forall (fun u => (fst u < Z.of_nat 4)%Z)
                     [(2%Z, f3_5); ((-1)%Z, f1_0); (0%Z, f1_0)])
    by (repeat constructor; cbn [fst]; lia).
  split; [exact F |].
  apply (persisted_record_stays_valid 4 Fletcher16
           [(2%Z, f3_5); ((-1)%Z, f1_0); (0%Z, f1_0)] zero_data (boot zeroed)).
  exact F.
Defined.

(** * More on the store *)

Lemma span_nth (p : nat -> byte) (len j : nat) (d : byte) :
  j < len -> nth j (span p len) d = p j.
Proof.
  intros H. unfold span.
  rewrite (nth_indep _ d (p 0)) by (rewrite length_map, length_seq; exact H).
  rewrite map_nth, seq_nth by exact H. reflexivity.
Qed.

Lemma be16_inj (a b a' b' : byte) : be16 a b = be16 a' b' -> a = a' /\ b = b'.
Proof.
  unfold be16. intros H.
  pose proof (u8_range a). pose proof (u8_range b).
  pose proof (u8_range a'). pose proof (u8_range b').
  assert (u8 a = u8 a' /\ u8 b = u8 b') as [Ea Eb] by lia.
  split.
  - rewrite <- (to_u8_u8 a), <- (to_u8_u8 a'), Ea. reflexivity.
  - rewrite <- (to_u8_u8 b), <- (to_u8_u8 b'), Eb. reflexivity.
Qed.

Section StoreMore.

Variable N : nat.
Variable Compute : list byte -> Z.

Local Abbreviation SIZE := (PARAM_STORE_SIZE N).

Lemma reset_state_past (g : Globals) (j : nat) :
  SIZE <= j -> EEPROM (reset_state N Compute g) j = EEPROM g j.
Proof.
  intros H. unfold reset_state. cbv zeta. cbn [EEPROM]. apply fill_outside. lia.
Qed.

Lemma reset_state_log (g : Globals) :
  eeprom_log (reset_state N Compute g) =
  eeprom_log g ++
  map (fun a => EeWrite a (nth a (fresh_record N Compute) x00)) (seq 0 SIZE).
Proof.
  pose proof (PARAM_STORE_SIZE_eq N) as S.
  unfold reset_state. cbv zeta. cbn [eeprom_log]. f_equal.
  apply map_ext_in. intros a Ha. apply in_seq in Ha. f_equal.
  rewrite <- (reset_buf_span N Compute (param_buf g)).
  rewrite span_nth by (unfold checksum_offset; lia). reflexivity.
Qed.


(** X2.  Neither function changes a byte of the device past the record:
    for every address at or above [3+4N+2], the byte after a load, and after
    an update whose index is negative or inside the array, is the byte
    before. *)
Theorem bytes_past_the_record_are_untouched
        (idx : Z) (v : float32) (d : TelemData) (g : Globals) (j : nat) :
  checksum_offset N + 2 <= j ->
  (idx < Z.of_nat N)%Z ->
  (exists r g', TelemInit N Compute (Some d) g = Done (r, g') /\
                EEPROM g' j = EEPROM g j) /\
  (exists r g', TelemUpdate N Compute idx v (Some d) g = Done (r, g') /\
                EEPROM g' j = EEPROM g j).
Proof.
  intros Hj Hi. pose proof (PARAM_STORE_SIZE_eq N) as S.
  assert (C : checksum_offset N = 3 + 4 * N) by reflexivity.
  split.
  - rewrite TelemInit_classified.
    destruct (classify N Compute (EEPROM g)); do 2 eexists;
      (split; [reflexivity |]).
    + rewrite reset_state_past by lia. reflexivity.
    + rewrite reset_state_past by lia. reflexivity.
    + reflexivity.
  - destruct (Z.neg_nonneg_cases idx) as [Neg|Pos].
    + do 2 eexists. split; [apply TelemUpdate_negative; exact Neg | reflexivity].
    + exists (Some (mkTelemData (upd (param d) (Z.to_nat idx) v))),
             (updated N Compute (Z.to_nat idx) v g).
      split.
      * rewrite <- (Z2Nat.id idx Pos) at 1. apply TelemUpdate_run. lia.
      * apply updated_eeprom_out. rewrite in_footprint.
        unfold param_offset. lia.
Qed.

(** X3.  What a load reports depends only on what it found: on an invalid
    header the two informational messages, on a checksum mismatch the warning
    and then the informational [done.], and on a valid record nothing. *)
Theorem load_reports_what_it_found (d : TelemData) (g : Globals) :
  exists d' g',
    TelemInit N Compute (Some d) g = Done (Some d', g') /\
    msg_log g' = msg_log g ++ load_messages (classify N Compute (EEPROM g)).
Proof.
  rewrite TelemInit_classified.
  destruct (classify N Compute (EEPROM g)); do 2 eexists;
    (split; [reflexivity |]); cbn [load_messages].
  - unfold reset_state, with_msg, loaded. cbv zeta. cbn [msg_log].
    rewrite <- app_assoc. reflexivity.
  - unfold reset_state, with_msg, validated, loaded. cbv zeta. cbn [msg_log].
    rewrite <- app_assoc. reflexivity.
  - cbn [pushed validated loaded msg_log]. rewrite app_nil_r. reflexivity.
Qed.

(** X4.  The parameter table is handed to the MavLink object by a load of a
    valid record only, and it is then the array the caller gets back, the
    decoded stored parameters.  A load that initialises or recovers does not
    hand over a table: the one recorded before stays. *)
Theorem table_is_pushed_by_a_valid_load_only (d : TelemData) (g : Globals) :
  exists d' g',
    TelemInit N Compute (Some d) g = Done (Some d', g') /\
    match classify N Compute (EEPROM g) with
    | Valid =>
        telem_params g' = param d' /\
        forall i, i < N -> telem_params g' i = decode_param (EEPROM g) i
    | _ => telem_params g' = telem_params g
    end.
Proof.
  rewrite TelemInit_classified.
  destruct (classify N Compute (EEPROM g)); do 2 eexists;
    (split; [reflexivity |]).
  - reflexivity.
  - reflexivity.
  - cbn [pushed telem_params]. split; [reflexivity |].
    intros i Hi.
    pose proof (PARAM_STORE_SIZE_eq N) as S.
    unfold decoded, decode_param, float_at, param_offset, sizeof_header, sizeof_float.
    cbn [param]. apply Nat.ltb_lt in Hi as L. rewrite L.
    rewrite !loaded_buf by lia.
    f_equal; f_equal; lia.
Qed.

(** X5.  The accesses of a load to the device, in order: it reads each of
    the [3+4N+2] bytes of the record once, ascending; if the record is valid
    that is all, otherwise it then writes each byte of the record once,
    ascending, with the bytes of the fresh record. *)
Theorem load_access_trace (d : TelemData) (g : Globals) :
  exists d' g',
    TelemInit N Compute (Some d) g = Done (Some d', g') /\
    eeprom_log g' =
      eeprom_log g ++
      map EeRead (seq 0 (checksum_offset N + 2)) ++
      match classify N Compute (EEPROM g) with
      | Valid => []
      | _ => map (fun a => EeWrite a (nth a (fresh_record N Compute) x00))
                 (seq 0 (checksum_offset N + 2))
      end.
Proof.
  assert (E : checksum_offset N + 2 = SIZE)
    by (rewrite (PARAM_STORE_SIZE_eq N); reflexivity).
  rewrite E. rewrite TelemInit_classified.
  destruct (classify N Compute (EEPROM g)); do 2 eexists;
    (split; [reflexivity |]).
  - rewrite reset_state_log. cbn [with_msg loaded eeprom_log].
    rewrite <- app_assoc. reflexivity.
  - rewrite reset_state_log. cbn [with_msg validated loaded eeprom_log].
    rewrite <- app_assoc. reflexivity.
  - cbn [pushed validated loaded eeprom_log]. rewrite app_nil_r. reflexivity.
Qed.

(** X6.  Whatever the checksum function: take a valid record and change one
    or both of its two stored checksum bytes, header and parameters left as
    they are.  The next load classifies the record as Corrupted, warns, and
    leaves the fresh record on the device. *)
Theorem altered_checksum_bytes_are_detected
        (e : nat -> byte) (d : TelemData) (g : Globals) :
  record_valid N Compute e = true ->
  (forall j, j < checksum_offset N -> EEPROM g j = e j) ->
  EEPROM g (checksum_offset N) <> e (checksum_offset N) \/
  EEPROM g (checksum_offset N + 1) <> e (checksum_offset N + 1) ->
  classify N Compute (EEPROM g) = Corrupted /\
  exists g',
    TelemInit N Compute (Some d) g = Done (Some d, g') /\
    record N (EEPROM g') = fresh_record N Compute /\
    msg_log g' = msg_log g ++ load_messages Corrupted.
Proof.
  intros Hv Hp Hc.
  assert (C : classify N Compute (EEPROM g) = Corrupted).
  { unfold record_valid in Hv. apply andb_prop in Hv. destruct Hv as [Hh Hm].
    unfold checksum_matches in Hm. apply Z.eqb_eq in Hm.
    unfold classify.
    rewrite (is_header_valid_ext (EEPROM g) e)
      by (intros j Hj; apply Hp; unfold checksum_offset; lia).
    rewrite Hh.
    assert (M : checksum_matches N Compute (EEPROM g) = false).
    { unfold checksum_matches. apply Z.eqb_neq.
      unfold fresh_checksum. rewrite (span_ext (EEPROM g) e) by exact Hp.
      fold (fresh_checksum N Compute e). rewrite Hm.
      unfold stored_checksum. intros B. symmetry in B.
      apply be16_inj in B. destruct B as [B0 B1].
      destruct Hc as [Hc|Hc]; contradiction. }
    rewrite M. reflexivity. }
  split; [exact C |].
  rewrite TelemInit_classified, C. eexists. split; [reflexivity |].
  split; [apply reset_state_record |].
  cbn [load_messages].
  unfold reset_state, with_msg, validated, loaded. cbv zeta. cbn [msg_log].
  rewrite <- app_assoc. reflexivity.
Qed.

Lemma put_float_spec (e : nat -> byte) (o : nat) (v : float32) (k : nat) :
  put_float e o v k =
  if (o <=? k) && (k <? o + 4) then float_byte v (k - o) else e k.
Proof.
  destruct (Nat.leb_spec o k) as [L|L]; cbn [andb].
  - destruct (Nat.ltb_spec k (o + 4)) as [U|U].
    + replace k with (o + (k - o)) at 1 by lia. apply put_float_inside. lia.
    + apply put_float_outside. lia.
  - apply put_float_outside. lia.
Qed.

(** Below the checksum, the device after an update is the device before it
    with the bytes of the value in the field. *)
Lemma updated_payload (i : nat) (v : float32) (g : Globals) (j : nat) :
  i < N -> j < checksum_offset N ->
  EEPROM (updated N Compute i v g) j = put_float (EEPROM g) (param_offset i) v j.
Proof.
  intros Hi Hj. assert (C : checksum_offset N = 3 + 4 * N) by reflexivity.
  rewrite put_float_spec.
  destruct (Nat.leb_spec (param_offset i) j) as [L|L]; cbn [andb].
  - destruct (Nat.ltb_spec j (param_offset i + 4)) as [U|U].
    + rewrite updated_eeprom_in by (apply in_footprint; lia).
      replace j with (param_offset i + (j - param_offset i)) at 1 by lia.
      apply updated_buf_field; lia.
    + apply updated_eeprom_out. rewrite in_footprint. lia.
  - apply updated_eeprom_out. rewrite in_footprint. lia.
Qed.

Lemma updated_record (i : nat) (v : float32) (g : Globals) :
  store_ready N Compute g -> i < N ->
  record N (EEPROM (updated N Compute i v g)) =
  seal Compute (span (put_float (EEPROM g) (param_offset i) v) (checksum_offset N)).
Proof.
  intros [Hs Hv] Hi. pose proof (PARAM_STORE_SIZE_eq N) as S.
  assert (C : checksum_offset N = 3 + 4 * N) by reflexivity.
  assert (P : span (EEPROM (updated N Compute i v g)) (checksum_offset N) =
              span (put_float (EEPROM g) (param_offset i) v) (checksum_offset N))
    by (apply span_ext; intros j Hj; apply updated_payload; assumption).
  assert (K : chk_computed (updated N Compute i v g) =
              to_u16 (Compute (span (put_float (EEPROM g) (param_offset i) v)
                                    (checksum_offset N)))).
  { rewrite updated_computed, <- P. do 2 f_equal.
    apply span_ext. intros j Hj. apply updated_sync; [exact Hs | lia]. }
  unfold record, seal. cbv zeta. rewrite span_snoc2, P. f_equal.
  rewrite !updated_eeprom_in by (apply in_footprint; lia).
  rewrite updated_buf, put_chk_hi, put_chk_lo, K, Z.shiftr_div_pow2 by lia.
  reflexivity.
Qed.

(** X7.  On a ready store, the six bytes an update writes leave on the
    device exactly the record a full rewrite would: the old header and
    parameters with the four bytes of the value in field [i], followed by the
    checksum of these [3+4N] bytes, high byte first. *)
Theorem partial_write_is_a_full_rewrite
        (i : nat) (v : float32) (d : TelemData) (g : Globals) :
  store_ready N Compute g ->
  i < N ->
  exists d' g',
    TelemUpdate N Compute (Z.of_nat i) v (Some d) g = Done (Some d', g') /\
    record N (EEPROM g') =
      seal Compute (span (put_float (EEPROM g) (param_offset i) v) (checksum_offset N)).
Proof.
  intros Hr Hi. do 2 eexists.
  split; [apply TelemUpdate_run; exact Hi | apply updated_record; assumption].
Qed.

(** X8.  On a ready store, two updates of the same parameter in a row leave
    the record and the caller's array that the second update alone would
    leave: the first value is overwritten without trace. *)
Theorem second_update_of_a_parameter_wins
        (i : nat) (v1 v2 : float32) (d : TelemData) (g : Globals) :
  store_ready N Compute g ->
  i < N ->
  exists d1 g1 d12 g12 d2 g2,
    TelemUpdate N Compute (Z.of_nat i) v1 (Some d) g = Done (Some d1, g1) /\
    TelemUpdate N Compute (Z.of_nat i) v2 (Some d1) g1 = Done (Some d12, g12) /\
    TelemUpdate N Compute (Z.of_nat i) v2 (Some d) g = Done (Some d2, g2) /\
    record N (EEPROM g12) = record N (EEPROM g2) /\
    forall k, param d12 k = param d2 k.
Proof.
  intros Hr Hi.
  do 6 eexists.
  split; [apply TelemUpdate_run; exact Hi |].
  split; [apply TelemUpdate_run; exact Hi |].
  split; [apply TelemUpdate_run; exact Hi |].
  split.
  - rewrite !updated_record by (try apply updated_ready; assumption).
    f_equal. apply span_ext. intros j Hj.
    rewrite !put_float_spec, updated_payload, put_float_spec by assumption.
    destruct ((param_offset i <=? j) && (j <? param_offset i + 4)); reflexivity.
  - intros k. cbn [param]. unfold upd.
    destruct (Nat.eqb k i); reflexivity.
Qed.

(** X9.  On a ready store, updates of two different parameters commute:
    in either order they leave the same record on the device and the same
    array with the caller. *)
Theorem updates_of_different_parameters_commute
        (i j : nat) (vi vj : float32) (d : TelemData) (g : Globals) :
  store_ready N Compute g ->
  i < N -> j < N -> i <> j ->
  exists di gi dij gij dj gj dji gji,
    TelemUpdate N Compute (Z.of_nat i) vi (Some d) g = Done (Some di, gi) /\
    TelemUpdate N Compute (Z.of_nat j) vj (Some di) gi = Done (Some dij, gij) /\
    TelemUpdate N Compute (Z.of_nat j) vj (Some d) g = Done (Some dj, gj) /\
    TelemUpdate N Compute (Z.of_nat i) vi (Some dj) gj = Done (Some dji, gji) /\
    record N (EEPROM gij) = record N (EEPROM gji) /\
    forall k, param dij k = param dji k.
Proof.
  intros Hr Hi Hj Hij.
  do 8 eexists.
  split; [apply TelemUpdate_run; exact Hi |].
  split; [apply TelemUpdate_run; exact Hj |].
  split; [apply TelemUpdate_run; exact Hj |].
  split; [apply TelemUpdate_run; exact Hi |].
  split.
  - rewrite !updated_record by (try apply updated_ready; assumption).
    f_equal. apply span_ext. intros k Hk.
    rewrite !put_float_spec, !updated_payload, !put_float_spec by assumption.
    unfold param_offset.
    destruct (Nat.leb_spec (3 + 4 * j) k), (Nat.ltb_spec k (3 + 4 * j + 4)),
      (Nat.leb_spec (3 + 4 * i) k), (Nat.ltb_spec k (3 + 4 * i + 4));
      cbn [andb]; try reflexivity; lia.
  - intros k. cbn [param]. unfold upd.
    destruct (Nat.eqb_spec k j), (Nat.eqb_spec k i); try reflexivity. lia.
Qed.

Lemma updated_array_in_sync (i : nat) (v : float32) (d : TelemData) (g : Globals) :
  i < N ->
  array_in_sync N d (EEPROM g) ->
  array_in_sync N (mkTelemData (upd (param d) i v)) (EEPROM (updated N Compute i v g)).
Proof.
  intros Hi Ha k Hk. cbn [param]. rewrite updated_decode by assumption.
  unfold upd. destruct (Nat.eqb k i); [reflexivity | apply Ha; exact Hk].
Qed.

Lemma frames_in_sync (ups : list (Z * float32)) (d : TelemData) (g : Globals) :
  Forall (fun u => (fst u < Z.of_nat N)%Z) ups ->
  store_ready N Compute g ->
  array_in_sync N d (EEPROM g) ->
  exists d' g',
    frames N Compute ups (Some d) g = Done (Some d', g') /\
    store_ready N Compute g' /\
    array_in_sync N d' (EEPROM g').
Proof.
  revert d g. induction ups as [|[idx v] ups IH]; intros d g Hu Hr Ha.
  - exists d, g. repeat split; try assumption; apply Hr.
  - inversion Hu as [|u us Hidx Hrest]; subst. cbn [fst] in Hidx.
    cbn [frames].
    destruct (Z.neg_nonneg_cases idx) as [Neg|Pos].
    + rewrite (bind_Done _ _ _ _ _ (TelemUpdate_negative N Compute idx v d g Neg)).
      apply IH; [exact Hrest | exact Hr | exact Ha].
    + assert (Hi : Z.to_nat idx < N) by lia.
      pose proof (TelemUpdate_run N Compute _ v d g Hi) as Eu.
      rewrite (Z2Nat.id idx Pos) in Eu.
      rewrite (bind_Done _ _ _ _ _ Eu).
      apply IH; [exact Hrest | apply updated_ready; assumption |
                 apply updated_array_in_sync; assumption].
Qed.

(** X10.  If the caller's array is all zeros when [TelemInit] is called,
    then whatever the load finds, the array it hands back holds what the
    device holds, parameter by parameter, and the store is ready. *)
Theorem zeroed_array_is_in_sync_after_load (d : TelemData) (g : Globals) :
  (forall i, i < N -> param d i = float_zero) ->
  exists d' g',
    TelemInit N Compute (Some d) g = Done (Some d', g') /\
    store_ready N Compute g' /\
    array_in_sync N d' (EEPROM g').
Proof.
  intros Hz. rewrite TelemInit_classified.
  destruct (classify N Compute (EEPROM g)) eqn:K; do 2 eexists;
    (split; [reflexivity |]).
  - split; [apply reset_state_ready |].
    intros k Hk. rewrite reset_decodes_zero by exact Hk. apply Hz. exact Hk.
  - split; [apply reset_state_ready |].
    intros k Hk. rewrite reset_decodes_zero by exact Hk. apply Hz. exact Hk.
  - apply classify_Valid in K. split.
    + split; [| exact K].
      intros j Hj. cbn [pushed validated param_buf EEPROM].
      rewrite (loaded_buf N g j Hj). reflexivity.
    + intros k Hk. cbn [pushed validated EEPROM].
      change (EEPROM (loaded N g)) with (EEPROM g).
      apply decoded_param. exact Hk.
Qed.

(** X11.  Durability over any number of frames.  On a ready store whose
    array holds what the device holds, after any frames on which the link
    reports no update or an update inside the array, the store is ready, the
    array still holds what the device holds, and a load from any state of the
    memory with that device hands back the same array. *)
Theorem frames_are_durable
        (ups : list (Z * float32)) (d : TelemData) (g : Globals) :
  store_ready N Compute g ->
  array_in_sync N d (EEPROM g) ->
  Forall (fun u => (fst u < Z.of_nat N)%Z) ups ->
  exists d' g',
    frames N Compute ups (Some d) g = Done (Some d', g') /\
    store_ready N Compute g' /\
    array_in_sync N d' (EEPROM g') /\
    forall h dh,
      EEPROM h = EEPROM g' ->
      exists d3 g3,
        TelemInit N Compute (Some dh) h = Done (Some d3, g3) /\
        forall k, k < N -> param d3 k = param d' k.
Proof.
  intros Hr Ha Hu.
  destruct (frames_in_sync ups d g Hu Hr Ha) as [d' [g' [E [R A]]]].
  exists d', g'. split; [exact E |]. split; [exact R |]. split; [exact A |].
  intros h dh Eh.
  assert (Vh : record_valid N Compute (EEPROM h) = true) by (rewrite Eh; apply R).
  do 2 eexists. split; [apply TelemInit_valid; exact Vh |].
  intros k Hk. rewrite decoded_param by exact Hk. rewrite Eh.
  symmetry. apply A. exact Hk.
Qed.

(** X12.  Wear of the device.  Over any frames on which the link reports no
    update or an update inside the array, [TelemUpdate] never reads the
    device and writes exactly six bytes for each frame with an update: the
    log grows by writes only, six times the number of such frames. *)
Theorem six_writes_per_update
        (ups : list (Z * float32)) (d : TelemData) (g : Globals) :
  Forall (fun u => (fst u < Z.of_nat N)%Z) ups ->
  exists d' g' ops,
    frames N Compute ups (Some d) g = Done (Some d', g') /\
    eeprom_log g' = eeprom_log g ++ ops /\
    forallb is_write ops = true /\
    List.length ops = 6 * pending ups.
Proof.
  revert d g. induction ups as [|[idx v] ups IH]; intros d g Hu.
  - exists d, g, []. rewrite app_nil_r. repeat split.
  - inversion Hu as [|u us Hidx Hrest]; subst. cbn [fst] in Hidx.
    cbn [frames]. unfold pending. cbn [filter fst].
    destruct (Z.neg_nonneg_cases idx) as [Neg|Pos].
    + rewrite (bind_Done _ _ _ _ _ (TelemUpdate_negative N Compute idx v d g Neg)).
      apply Z.leb_gt in Neg as L. rewrite L.
      destruct (IH d (mkGlobals (EEPROM g) (eeprom_log g) (msg_log g) (telem_params g)
                                idx (param_buf g) (chk_computed g) (chk_read g)
                                (chk_buf g)) Hrest)
        as [d' [g' [ops [E [Lg [W Ln]]]]]].
      exists d', g', ops. repeat split; assumption.
    + assert (Hi : Z.to_nat idx < N) by lia.
      apply Z.leb_le in Pos as L. rewrite L.
      pose proof (TelemUpdate_run N Compute _ v d g Hi) as Eu.
      rewrite (Z2Nat.id idx Pos) in Eu.
      rewrite (bind_Done _ _ _ _ _ Eu).
      destruct (IH (mkTelemData (upd (param d) (Z.to_nat idx) v))
                   (updated N Compute (Z.to_nat idx) v g) Hrest)
        as [d' [g' [ops [E [Lg [W Ln]]]]]].
      unfold updated in Lg. cbv zeta in Lg. cbn [eeprom_log] in Lg.
      rewrite <- app_assoc in Lg.
      eexists d', g', _. split; [exact E |]. split; [exact Lg |].
      split.
      * cbn [app forallb is_write andb]. exact W.
      * cbn [app List.length]. fold (pending ups) in Ln. rewrite Ln.
        fold (pending ups). lia.
Qed.

End StoreMore.

(** * The effector channels *)

Section EffectorFacts.

Variable P : nat.
Variable S : nat.

Lemma effector_loop_run (src : nat -> Z) (off count start : nat) (eff : nat -> Z) :
  start + count + off <= effector_size ->
  effector_loop start count (fun i e => effector_set (i + off) (src i) e) eff =
  Done (fill eff (fun j => src (j - off)) (start + off) count).
Proof.
  revert start eff. induction count as [|c IH]; intros start eff H.
  - reflexivity.
  - cbn [effector_loop]. unfold effector_set at 1.
    assert (L : (start + off <? effector_size) = true) by (apply Nat.ltb_lt; lia).
    rewrite L, IH by lia. cbn [fill Nat.add].
    replace (start + off - off) with start by lia. reflexivity.
Qed.

Lemma effector_loop_copy (src : nat -> Z) (count start : nat) (eff : nat -> Z) :
  start + count <= effector_size ->
  effector_loop start count (fun i e => effector_set i (src i) e) eff =
  Done (fill eff src start count).
Proof.
  revert start eff. induction count as [|c IH]; intros start eff H.
  - reflexivity.
  - cbn [effector_loop]. unfold effector_set at 1.
    assert (L : (start <? effector_size) = true) by (apply Nat.ltb_lt; lia).
    rewrite L, IH by lia. reflexivity.
Qed.

Lemma effector_loop_overrun (src : nat -> Z) (count start : nat) (eff : nat -> Z) :
  start <= effector_size < start + count ->
  effector_loop start count (fun i e => effector_set i (src i) e) eff = Undefined.
Proof.
  revert start eff. induction count as [|c IH]; intros start eff H; [lia |].
  cbn [effector_loop]. unfold effector_set at 1.
  destruct (Nat.ltb_spec start effector_size) as [L|L]; [| reflexivity].
  apply IH. lia.
Qed.

Lemma NUM_SBUS_fits : P <= effector_size -> P + NUM_SBUS P S <= effector_size.
Proof.
  intros H. unfold NUM_SBUS, to_size_t, effector_size in *.
  rewrite (Z.mod_small (Z.of_nat 16 - Z.of_nat P)) by lia.
  pose proof (Z.mod_pos_bound (Z.of_nat S) (2 ^ 32) ltac:(lia)). lia.
Qed.

Lemma NUM_SBUS_min :
  P <= effector_size -> (Z.of_nat S < 2 ^ 32)%Z ->
  NUM_SBUS P S = Nat.min S (effector_size - P).
Proof.
  intros H HS. unfold NUM_SBUS, to_size_t, effector_size in *.
  rewrite (Z.mod_small (Z.of_nat 16 - Z.of_nat P)) by lia.
  rewrite (Z.mod_small (Z.of_nat S)) by lia. lia.
Qed.

Lemma pack_effector_run (pwm sbus : nat -> Z) (eff : nat -> Z) :
  P <= effector_size ->
  pack_effector P S pwm sbus eff =
  Done (fill (fill eff pwm 0 P) (fun j => sbus (j - P)) P (NUM_SBUS P S)).
Proof.
  intros H. pose proof (NUM_SBUS_fits H) as F. unfold pack_effector.
  rewrite (effector_loop_copy pwm P 0 eff) by lia.
  rewrite (effector_loop_run sbus P (NUM_SBUS P S) 0) by lia. reflexivity.
Qed.

(** X13.  The packing of the effector channels stays inside the sixteen
    entries of [effector_] exactly when there are at most sixteen PWM pins:
    then, however many SBUS channels there are, no entry past the end is
    written; with more PWM pins the first loop runs past the end. *)
Theorem effector_packing_in_bounds (pwm sbus : nat -> Z) (eff : nat -> Z) :
  (exists eff', pack_effector P S pwm sbus eff = Done eff') <-> P <= effector_size.
Proof.
  split.
  - intros [eff' E]. destruct (Nat.le_gt_cases P effector_size) as [L|G]; [exact L |].
    unfold pack_effector in E.
    rewrite effector_loop_overrun in E by lia. discriminate E.
  - intros H. eexists. apply pack_effector_run. exact H.
Qed.

(** X14.  With at most sixteen PWM pins, after the packing the PWM counts
    are in entries [0 .. P-1], the first [min(S, 16-P)] SBUS counts follow
    them in entries [P ..], the SBUS channels that do not fit are dropped,
    and every entry after them is as it was. *)
Theorem effector_layout (pwm sbus : nat -> Z) (eff : nat -> Z) :
  P <= effector_size ->
  (Z.of_nat S < 2 ^ 32)%Z ->
  exists eff',
    pack_effector P S pwm sbus eff = Done eff' /\
    NUM_SBUS P S = Nat.min S (effector_size - P) /\
    (forall i, i < P -> eff' i = pwm i) /\
    (forall i, i < NUM_SBUS P S -> eff' (P + i) = sbus i) /\
    (forall j, P + NUM_SBUS P S <= j -> eff' j = eff j).
Proof.
  intros H HS. eexists. split; [apply pack_effector_run; exact H |].
  split; [apply NUM_SBUS_min; assumption |].
  split; [| split].
  - intros i Hi. rewrite fill_outside by lia. apply fill_inside. lia.
  - intros i Hi. rewrite fill_inside by lia. f_equal. lia.
  - intros j Hj. rewrite !fill_outside by lia. reflexivity.
Qed.

End EffectorFacts.

(** * The further theorems at the scenario *)

Lemma scenario_ready_is_ready : store_ready 4 Fletcher16 scenario_ready.
Proof.
  split.
  - intros j Hj.
    do 21 (destruct j as [|j]; [reflexivity |]).
    vm_compute in Hj. lia.
  - vm_compute. reflexivity.
Qed.

Lemma scenario_array_in_sync : array_in_sync 4 zero_data (EEPROM scenario_ready).
Proof.
  intros k Hk. do 4 (destruct k as [|k]; [reflexivity |]). lia.
Qed.

Lemma scenario_frames_in_range :
  Forall (fun u => (fst u < Z.of_nat 4)%Z) scenario_frames.
Proof. repeat constructor; cbn [fst]; lia. Qed.

Lemma bytes_past_the_record_are_untouched_witness :
  checksum_offset 4 + 2 <= 21 /\
  (2 < Z.of_nat 4)%Z /\
  (exists r g', TelemInit 4 Fletcher16 (Some zero_data) (boot erased) = Done (r, g') /\
                EEPROM g' 21 = EEPROM (boot erased) 21) /\
  (exists r g', TelemUpdate 4 Fletcher16 2 f3_5 (Some zero_data) (boot erased) =
                  Done (r, g') /\
                EEPROM g' 21 = EEPROM (boot erased) 21).
Proof.
  split; [unfold checksum_offset; lia |]. split; [lia |].
  apply (bytes_past_the_record_are_untouched 4 Fletcher16 2 f3_5 zero_data
           (boot erased) 21).
  - unfold checksum_offset; lia.
  - lia.
Defined.

Lemma altered_checksum_bytes_are_detected_witness :
  record_valid 4 Fletcher16 fresh4 = true /\
  (forall j, j < checksum_offset 4 -> EEPROM (boot checksum_altered4) j = fresh4 j) /\
  (EEPROM (boot checksum_altered4) (checksum_offset 4) <> fresh4 (checksum_offset 4) \/
   EEPROM (boot checksum_altered4) (checksum_offset 4 + 1) <>
     fresh4 (checksum_offset 4 + 1)) /\
  classify 4 Fletcher16 (EEPROM (boot checksum_altered4)) = Corrupted /\
  exists g',
    TelemInit 4 Fletcher16 (Some ones_data) (boot checksum_altered4) =
      Done (Some ones_data, g') /\
    record 4 (EEPROM g') = fresh_record 4 Fletcher16 /\
    msg_log g' = msg_log (boot checksum_altered4) ++ load_messages Corrupted.
Proof.
  assert (H1 : record_valid 4 Fletcher16 fresh4 = true) by (vm_compute; reflexivity).
  assert (H2 : forall j, j < checksum_offset 4 ->
                         EEPROM (boot checksum_altered4) j = fresh4 j).
  { intros j Hj. do 19 (destruct j as [|j]; [reflexivity |]).
    vm_compute in Hj. lia. }
  assert (H3 : EEPROM (boot checksum_altered4) (checksum_offset 4) <>
                 fresh4 (checksum_offset 4) \/
               EEPROM (boot checksum_altered4) (checksum_offset 4 + 1) <>
                 fresh4 (checksum_offset 4 + 1))
    by (left; vm_compute; discriminate).
  split; [exact H1 |]. split; [exact H2 |]. split; [exact H3 |].
  apply (altered_checksum_bytes_are_detected 4 Fletcher16 fresh4 ones_data
           (boot checksum_altered4) H1 H2 H3).
Defined.

Lemma partial_write_is_a_full_rewrite_witness :
  store_ready 4 Fletcher16 scenario_ready /\
  2 < 4 /\
  exists d' g',
    TelemUpdate 4 Fletcher16 (Z.of_nat 2) f3_5 (Some zero_data) scenario_ready =
      Done (Some d', g') /\
    record 4 (EEPROM g') =
      seal Fletcher16
           (span (put_float (EEPROM scenario_ready) (param_offset 2) f3_5)
                 (checksum_offset 4)).
Proof.
  split; [exact scenario_ready_is_ready |]. split; [lia |].
  apply (partial_write_is_a_full_rewrite 4 Fletcher16 2 f3_5 zero_data scenario_ready).
  - exact scenario_ready_is_ready.
  - lia.
Defined.

Lemma second_update_of_a_parameter_wins_witness :
  store_ready 4 Fletcher16 scenario_ready /\
  2 < 4 /\
  exists d1 g1 d12 g12 d2 g2,
    TelemUpdate 4 Fletcher16 (Z.of_nat 2) f3_5 (Some zero_data) scenario_ready =
      Done (Some d1, g1) /\
    TelemUpdate 4 Fletcher16 (Z.of_nat 2) f1_0 (Some d1) g1 = Done (Some d12, g12) /\
    TelemUpdate 4 Fletcher16 (Z.of_nat 2) f1_0 (Some zero_data) scenario_ready =
      Done (Some d2, g2) /\
    record 4 (EEPROM g12) = record 4 (EEPROM g2) /\
    forall k, param d12 k = param d2 k.
Proof.
  split; [exact scenario_ready_is_ready |]. split; [lia |].
  apply (second_update_of_a_parameter_wins 4 Fletcher16 2 f3_5 f1_0 zero_data
           scenario_ready).
  - exact scenario_ready_is_ready.
  - lia.
Defined.

Lemma updates_of_different_parameters_commute_witness :
  store_ready 4 Fletcher16 scenario_ready /\
  0 < 4 /\ 2 < 4 /\ 0 <> 2 /\
  exists di gi dij gij dj gj dji gji,
    TelemUpdate 4 Fletcher16 (Z.of_nat 0) f1_0 (Some zero_data) scenario_ready =
      Done (Some di, gi) /\
    TelemUpdate 4 Fletcher16 (Z.of_nat 2) f3_5 (Some di) gi = Done (Some dij, gij) /\
    TelemUpdate 4 Fletcher16 (Z.of_nat 2) f3_5 (Some zero_data) scenario_ready =
      Done (Some dj, gj) /\
    TelemUpdate 4 Fletcher16 (Z.of_nat 0) f1_0 (Some dj) gj = Done (Some dji, gji) /\
    record 4 (EEPROM gij) = record 4 (EEPROM gji) /\
    forall k, param dij k = param dji k.
Proof.
  split; [exact scenario_ready_is_ready |].
  split; [lia |]. split; [lia |]. split; [lia |].
  apply (updates_of_different_parameters_commute 4 Fletcher16 0 2 f1_0 f3_5 zero_data
           scenario_ready).
  - exact scenario_ready_is_ready.
  - lia.
  - lia.
  - lia.
Defined.

Lemma zeroed_array_is_in_sync_after_load_witness :
  (forall i, i < 4 -> param zero_data i = float_zero) /\
  exists d' g',
    TelemInit 4 Fletcher16 (Some zero_data) (boot erased) = Done (Some d', g') /\
    store_ready 4 Fletcher16 g' /\
    array_in_sync 4 d' (EEPROM g').
Proof.
  split; [intros i Hi; reflexivity |].
  apply (zeroed_array_is_in_sync_after_load 4 Fletcher16 zero_data (boot erased)).
  intros i Hi. reflexivity.
Defined.

Lemma frames_are_durable_witness :
  store_ready 4 Fletcher16 scenario_ready /\
  array_in_sync 4 zero_data (EEPROM scenario_ready) /\
  Forall (fun u => (fst u < Z.of_nat 4)%Z) scenario_frames /\
  exists d' g',
    frames 4 Fletcher16 scenario_frames (Some zero_data) scenario_ready =
      Done (Some d', g') /\
    store_ready 4 Fletcher16 g' /\
    array_in_sync 4 d' (EEPROM g') /\
    forall h dh,
      EEPROM h = EEPROM g' ->
      exists d3 g3,
        TelemInit 4 Fletcher16 (Some dh) h = Done (Some d3, g3) /\
        forall k, k < 4 -> param d3 k = param d' k.
Proof.
  split; [exact scenario_ready_is_ready |].
  split; [exact scenario_array_in_sync |].
  split; [exact scenario_frames_in_range |].
  apply (frames_are_durable 4 Fletcher16 scenario_frames zero_data scenario_ready).
  - exact scenario_ready_is_ready.
  - exact scenario_array_in_sync.
  - exact scenario_frames_in_range.
Defined.

Lemma six_writes_per_update_witness :
  Forall (fun u => (fst u < Z.of_nat 4)%Z) scenario_frames /\
  exists d' g' ops,
    frames 4 Fletcher16 scenario_frames (Some zero_data) scenario_ready =
      Done (Some d', g') /\
    eeprom_log g' = eeprom_log scenario_ready ++ ops /\
    forallb is_write ops = true /\
    List.length ops = 6 * pending scenario_frames.
Proof.
  split; [exact scenario_frames_in_range |].
  apply (six_writes_per_update 4 Fletcher16 scenario_frames zero_data scenario_ready).
  exact scenario_frames_in_range.
Defined.

Lemma effector_layout_witness :
  8 <= effector_size /\
  (Z.of_nat 16 < 2 ^ 32)%Z /\
  exists eff',
    pack_effector 8 16 (fun i => Z.of_nat i) (fun i => (100 + Z.of_nat i)%Z)
                  (fun _ => 0%Z) = Done eff' /\
    NUM_SBUS 8 16 = Nat.min 16 (effector_size - 8) /\
    (forall i, i < 8 -> eff' i = Z.of_nat i) /\
    (forall i, i < NUM_SBUS 8 16 -> eff' (8 + i) = (100 + Z.of_nat i)%Z) /\
    (forall j, 8 + NUM_SBUS 8 16 <= j -> eff' j = 0%Z).
Proof.
  split; [unfold effector_size; lia |]. split; [vm_compute; reflexivity |].
  apply (effector_layout 8 16 (fun i => Z.of_nat i) (fun i => (100 + Z.of_nat i)%Z)
           (fun _ => 0%Z)).
  - unfold effector_size; lia.
  - vm_compute; reflexivity.
Defined.
